(** * BGAW: GitHub Actions workflow events aggregated into one Discord embed

    A shallow embedding of [main.py]: the [WorkflowEmbed] aggregate record,
    its handlers, the process-wide expiring [cache] and the [receive_event]
    endpoint, followed by the properties of the correlation core.

    Conventions of the embedding.
    - A webhook payload is a JSON document ([json]); Python's subscript,
      [dict.get], truthiness and [==] against a string literal are
      written out with the exceptions they raise.
    - Python exceptions are values of [exn]; a computation that may raise
      returns a [result].
    - A handler mutates [self] in place and may raise afterwards, so the
      handlers live in a monad [M] that keeps the mutated record and the
      outbound calls made so far also when an exception is raised.
    - Outbound Discord calls are recorded as a trace of [action]s; what the
      Discord collaborator answers is an input ([reply]).
    - Python's [str()] applied to a payload value inside an f-string is a
      Section variable [py_str].
    - The store's clock is read once per call ([now], in seconds).
    - One call of the endpoint runs to completion; each call awaits at most
      one outbound call.  How calls interleave at their await points is
      outside the embedding. *)

From Stdlib Require Import String Ascii List ZArith Bool Lia DecimalString.
Import ListNotations.
Open Scope string_scope.
Open Scope list_scope.
Open Scope Z_scope.

(** ** Python values and exceptions *)

Set Warnings "-register-all".

(** A decoded JSON document, as FastAPI hands it to the endpoint.  Numbers
    are the integer ids GitHub sends; [JObj] lists the items of a decoded
    object, one per key. *)
Inductive json : Type :=
| JNull
| JBool (b : bool)
| JNum (z : Z)
| JStr (s : string)
| JArr (l : list json)
| JObj (o : list (string * json)).

(** Hashable payload values, up to Python's key equality ([True == 1]). *)
Inductive hkey : Type :=
| KNull
| KNum (z : Z)
| KStr (s : string).

Inductive exn : Type :=
| KeyError (k : hkey)
| TypeError
| AttributeError
| IndexError
| HTTPException.

Inductive result (A : Type) : Type :=
| Ok (a : A)
| Raise (e : exn).
Arguments Ok {A} a.
Arguments Raise {A} e.

Definition rbind {A B} (r : result A) (f : A -> result B) : result B :=
  match r with
  | Ok a => f a
  | Raise e => Raise e
  end.

Declare Scope result_scope.
Delimit Scope result_scope with result.
Notation "x <- r ;; k" := (rbind r (fun x => k))
  (at level 61, r at next level, right associativity) : result_scope.

Definition hkey_eqb (a b : hkey) : bool :=
  match a, b with
  | KNull, KNull => true
  | KNum x, KNum y => Z.eqb x y
  | KStr s, KStr t => String.eqb s t
  | _, _ => false
  end.

(** [hash(v)] as a dict or cache key: lists and dicts are unhashable. *)
Definition py_hash (v : json) : result hkey :=
  match v with
  | JNull => Ok KNull
  | JBool b => Ok (KNum (if b then 1 else 0))
  | JNum z => Ok (KNum z)
  | JStr s => Ok (KStr s)
  | JArr _ | JObj _ => Raise TypeError
  end.

Fixpoint assoc {V} (k : string) (o : list (string * V)) : option V :=
  match o with
  | [] => None
  | (k', v) :: o' => if String.eqb k k' then Some v else assoc k o'
  end.

(** [v[k]] for a string key [k]. *)
Definition subscript (v : json) (k : string) : result json :=
  match v with
  | JObj o =>
      match assoc k o with
      | Some x => Ok x
      | None => Raise (KeyError (KStr k))
      end
  | _ => Raise TypeError
  end.

(** [v[0]]. *)
Definition subscript0 (v : json) : result json :=
  match v with
  | JArr (x :: _) => Ok x
  | JArr [] => Raise IndexError
  | JStr (String c _) => Ok (JStr (String c EmptyString))
  | JStr EmptyString => Raise IndexError
  | JObj _ => Raise (KeyError (KNum 0))
  | _ => Raise TypeError
  end.

(** [v.get(k, None)]. *)
Definition py_get (v : json) (k : string) : result json :=
  match v with
  | JObj o =>
      match assoc k o with
      | Some x => Ok x
      | None => Ok JNull
      end
  | _ => Raise AttributeError
  end.

(** [bool(v)]. *)
Definition truthy (v : json) : bool :=
  match v with
  | JNull => false
  | JBool b => b
  | JNum z => negb (Z.eqb z 0)
  | JStr s => negb (String.eqb s "")
  | JArr l => match l with [] => false | _ => true end
  | JObj o => match o with [] => false | _ => true end
  end.

(** [v == "literal"]. *)
Definition eq_str (v : json) (s : string) : bool :=
  match v with
  | JStr t => String.eqb t s
  | _ => false
  end.

(** ** Status markers ([determine_color]) *)

Definition LARGE_RED_CIRCLE : string := "🔴".
Definition LARGE_GREEN_CIRCLE : string := "🟢".
Definition LARGE_YELLOW_CIRCLE : string := "🟡".
Definition WindowsLoading : string := "<a:WindowsLoading:883414701218873376>".
Definition BLACK_QUESTION_MARK_ORNAMENT : string := "❓".

Definition determine_color (payload : json) : result string :=
  (c <- subscript payload "conclusion" ;;
   if eq_str c "failure" then Ok LARGE_RED_CIRCLE
   else
     c' <- subscript payload "conclusion" ;;
     if eq_str c' "success" then Ok LARGE_GREEN_CIRCLE
     else
       s <- subscript payload "status" ;;
       if eq_str s "queued" then Ok LARGE_YELLOW_CIRCLE
       else
         s' <- subscript payload "status" ;;
         if eq_str s' "in_progress" then Ok WindowsLoading
         else Ok BLACK_QUESTION_MARK_ORNAMENT)%result.


(** ** The Discord side: embeds, messages, outbound calls *)

Record Author : Type := mkAuthor {
  author_name : string;
  author_url : option string;
  author_icon_url : option string
}.

Record Embed : Type := mkEmbed {
  color : Z;
  title : option string;
  url : option string;
  description : option string;
  author : option Author
}.

Definition og_blurple : Z := 0x7289da.

(** [discord.Embed(color=discord.Color.og_blurple())]. *)
Definition new_Embed : Embed :=
  {| color := og_blurple; title := None; url := None;
     description := None; author := None |}.

Definition with_title (t : string) (e : Embed) : Embed :=
  {| color := color e; title := Some t; url := url e;
     description := description e; author := author e |}.

Definition with_url (u : string) (e : Embed) : Embed :=
  {| color := color e; title := title e; url := Some u;
     description := description e; author := author e |}.

Definition with_description (d : string) (e : Embed) : Embed :=
  {| color := color e; title := title e; url := url e;
     description := Some d; author := author e |}.

Definition with_author (a : Author) (e : Embed) : Embed :=
  {| color := color e; title := title e; url := url e;
     description := description e; author := Some a |}.

(** A [discord.WebhookMessage]: the opaque handle of a published message. *)
Definition handle : Type := nat.

(** Calls made to the Discord collaborator, in the order they are made. *)
Inductive action : Type :=
| Send (webhook_id : Z) (webhook_token : string) (thread : option Z) (e : Embed)
| Edit (h : handle) (e : Embed).

(** What Discord answers to the one call a handler run awaits. *)
Inductive reply : Type :=
| Delivered (h : handle)
| Failed.

Definition is_send (a : action) : bool :=
  match a with Send _ _ _ _ => true | Edit _ _ => false end.

Definition is_edit (a : action) : bool :=
  match a with Send _ _ _ _ => false | Edit _ _ => true end.

(** ** The aggregate record *)

(** One value of [self.workflows]: [{'color': ..., 'name': ...}]. *)
Record Workflow : Type := mkWorkflow {
  wcolor : string;
  wname : json
}.

(** A Python [dict] keyed by hashable values: insertion-ordered, a key
    that is assigned again keeps its place. *)
Definition dict (V : Type) : Type := list (hkey * V).

Fixpoint dict_get {V} (k : hkey) (d : dict V) : option V :=
  match d with
  | [] => None
  | (k', v) :: d' => if hkey_eqb k k' then Some v else dict_get k d'
  end.

Fixpoint dict_set {V} (k : hkey) (v : V) (d : dict V) : dict V :=
  match d with
  | [] => [(k, v)]
  | (k', v') :: d' =>
      if hkey_eqb k k' then (k', v) :: d' else (k', v') :: dict_set k v d'
  end.

Definition dict_keys {V} (d : dict V) : list hkey := map fst d.
Definition dict_values {V} (d : dict V) : list V := map snd d.

Record WorkflowEmbed : Type := mkWorkflowEmbed {
  embed : Embed;
  workflows : dict Workflow;
  message : option handle
}.

Definition with_embed (e : Embed) (self : WorkflowEmbed) : WorkflowEmbed :=
  {| embed := e; workflows := workflows self; message := message self |}.

Definition with_workflows (w : dict Workflow) (self : WorkflowEmbed)
  : WorkflowEmbed :=
  {| embed := embed self; workflows := w; message := message self |}.

Definition with_message (m : option handle) (self : WorkflowEmbed)
  : WorkflowEmbed :=
  {| embed := embed self; workflows := workflows self; message := m |}.

(** ** The handler monad: [self], the outbound trace, exceptions *)

Definition M (A : Type) : Type :=
  WorkflowEmbed -> WorkflowEmbed * list action * result A.

Definition ret {A} (a : A) : M A := fun self => (self, [], Ok a).

Definition raise {A} (e : exn) : M A := fun self => (self, [], Raise e).

Definition bind {A B} (m : M A) (f : A -> M B) : M B :=
  fun self =>
    match m self with
    | (self1, acts1, Ok a) =>
        match f a self1 with
        | (self2, acts2, r) => (self2, acts1 ++ acts2, r)
        end
    | (self1, acts1, Raise e) => (self1, acts1, Raise e)
    end.

Definition lift {A} (r : result A) : M A := fun self => (self, [], r).

Definition get_self : M WorkflowEmbed := fun self => (self, [], Ok self).

Definition modify (f : WorkflowEmbed -> WorkflowEmbed) : M unit :=
  fun self => (f self, [], Ok tt).

Declare Scope M_scope.
Delimit Scope M_scope with M.
Notation "x <- m ;; k" := (bind m (fun x => k))
  (at level 61, m at next level, right associativity) : M_scope.
Notation "m ;; k" := (bind m (fun _ => k))
  (at level 61, right associativity) : M_scope.

(** [await self.message.edit(embed=self.embed)] on a message that exists. *)
Definition message_edit (r : reply) (h : handle) : M unit :=
  fun self =>
    (self, [Edit h (embed self)],
     match r with
     | Delivered _ => Ok tt
     | Failed => Raise HTTPException
     end).

(** ** The expiring store *)

(** Modelled from the spec: the expiring store.  [cache] is a
    [cachetools.TTLCache], a third-party class whose code is not part of
    [main.py]; the model follows section 4.1 of the specification: the
    store is bounded by a maximum number of entries and by a time-to-live
    per entry measured from insertion (not from last access); when capacity
    is exceeded the least recently inserted entry is evicted whatever its
    remaining time; a key whose time-to-live has elapsed is read as absent.
    Expired entries are dropped when an entry is stored.  Time is the
    reading [now] of the store's clock, in seconds. *)
Module TTLCache.

Record link (V : Type) : Type := mkLink {
  key : hkey;
  expires : Z;
  value : V
}.
Arguments mkLink {V} key expires value.
Arguments key {V} l.
Arguments expires {V} l.
Arguments value {V} l.

(** Entries in insertion order, oldest first. *)
Definition t (V : Type) : Type := list (link V).

Definition empty {V} : t V := [].

Definition live {V} (now : Z) (l : link V) : bool := now <? expires l.

Fixpoint find {V} (k : hkey) (c : t V) : option (link V) :=
  match c with
  | [] => None
  | l :: c' => if hkey_eqb k (key l) then Some l else find k c'
  end.

(** Modelled from the spec: [cache.get(k, None)]; an entry whose
    time-to-live has elapsed is read as absent. *)
Definition get {V} (now : Z) (c : t V) (k : hkey) : option V :=
  match find k c with
  | Some l => if live now l then Some (value l) else None
  | None => None
  end.

Definition expire {V} (now : Z) (c : t V) : t V := filter (live now) c.

Definition remove {V} (k : hkey) (c : t V) : t V :=
  filter (fun l => negb (hkey_eqb k (key l))) c.

(** Drop the oldest entries until one more fits under [maxsize]. *)
Definition make_room {V} (maxsize : nat) (c : t V) : t V :=
  skipn (length c + 1 - maxsize) c.

(** Modelled from the spec: [cache[k] = v]; the entry lives for [ttl] from
    this insertion, expired entries are dropped and the oldest entries
    make room for the new one. *)
Definition set {V} (maxsize : nat) (ttl : Z) (now : Z) (c : t V)
           (k : hkey) (v : V) : t V :=
  make_room maxsize (remove k (expire now c)) ++ [mkLink k (now + ttl) v].

(** The object stored under [k] is mutated in place: the store keeps the
    same entry, with the same expiry, and sees the new field values. *)
Fixpoint mutate {V} (k : hkey) (v : V) (c : t V) : t V :=
  match c with
  | [] => []
  | l :: c' =>
      if hkey_eqb k (key l) then mkLink (key l) (expires l) v :: c'
      else l :: mutate k v c'
  end.

Definition keys {V} (c : t V) : list hkey := map key c.

End TTLCache.

(** ** [WorkflowEmbed]: constructor and handlers *)

Section Aggregator.

(** Python's [str()] on a payload value, as applied by f-strings and by
    [discord.Embed.set_author]. *)
Variable py_str : json -> string.

Local Open Scope M_scope.

Definition newline : string := String (ascii_of_nat 10) EmptyString.

(** An optional keyword argument of [set_author]: [None] leaves the field
    out, anything else is stored as [str(value)]. *)
Definition opt_str (v : json) : option string :=
  match v with
  | JNull => None
  | _ => Some (py_str v)
  end.

(** [self.embed.title = t]. *)
Definition set_title (t : string) : M unit :=
  modify (fun self => with_embed (with_title t (embed self)) self).

(** [self.embed.url = u]. *)
Definition set_url (u : string) : M unit :=
  modify (fun self => with_embed (with_url u (embed self)) self).

(** [self.embed.set_author(name=..., url=..., icon_url=...)]. *)
Definition set_author (name url icon_url : json) : M unit :=
  modify (fun self =>
    with_embed
      (with_author
         {| author_name := py_str name;
            author_url := opt_str url;
            author_icon_url := opt_str icon_url |}
         (embed self))
      self).

(** [f"[{payload['repository']['name']}] suffix"]. *)
Definition repo_title (payload : json) (suffix : string) : result string :=
  (repo <- subscript payload "repository" ;;
   name <- subscript repo "name" ;;
   Ok ("[" ++ py_str name ++ "] " ++ suffix)%string)%result.

(** [payload['workflow_run']['triggering_actor'][field]]. *)
Definition triggering_actor (payload : json) (field : string) : result json :=
  (wr <- subscript payload "workflow_run" ;;
   actor <- subscript wr "triggering_actor" ;;
   subscript actor field)%result.

(** [payload['workflow_run']['event']]. *)
Definition run_event (payload : json) : result json :=
  (wr <- subscript payload "workflow_run" ;;
   subscript wr "event")%result.

Definition create_embed (payload : json) (event_name : string) : M Embed :=
  t <- lift (repo_title payload "Workflows") ;;
  set_title t ;;
  u <- lift (repo <- subscript payload "repository" ;;
             html <- subscript repo "html_url" ;;
             ev <- subscript payload event_name ;;
             sha <- subscript ev "head_sha" ;;
             Ok (py_str html ++ "/commit/" ++ py_str sha)%string)%result ;;
  set_url u ;;
  self <- get_self ;;
  ret (embed self).

(** [WorkflowEmbed(event_name, payload)]: the object exists only when
    [__init__] returns. *)
Definition new_WorkflowEmbed (event_name : string) (payload : json)
  : result WorkflowEmbed :=
  match create_embed payload event_name
          {| embed := new_Embed; workflows := []; message := None |} with
  | (self, _, Ok _) => Ok self
  | (_, _, Raise e) => Raise e
  end.

Definition create_description (self : WorkflowEmbed) : string :=
  String.concat newline
    (map (fun value => (wcolor value ++ " " ++ py_str (wname value))%string)
         (dict_values (workflows self))).

Definition handle_workflow_job (r : reply) (payload : json) : M unit :=
  color <- lift (wj <- subscript payload "workflow_job" ;;
                 determine_color wj)%result ;;
  value <- lift (wj <- subscript payload "workflow_job" ;;
                 name <- subscript wj "workflow_name" ;;
                 Ok {| wcolor := color; wname := name |})%result ;;
  key <- lift (wj <- subscript payload "workflow_job" ;;
               run_id <- subscript wj "run_id" ;;
               py_hash run_id)%result ;;
  modify (fun self => with_workflows (dict_set key value (workflows self)) self) ;;
  modify (fun self =>
    with_embed (with_description (create_description self) (embed self)) self) ;;
  self <- get_self ;;
  match message self with
  | Some h => message_edit r h
  | None => raise AttributeError
  end.

Definition handle_workflow_run (r : reply) (payload : json) : M unit :=
  ev <- lift (run_event payload) ;;
  (if eq_str ev "workflow_dispatch" then
     t <- lift (repo_title payload "Manually Triggered Workflow") ;;
     set_title t ;;
     name <- lift (triggering_actor payload "login") ;;
     link <- lift (triggering_actor payload "html_url") ;;
     set_author name link JNull
   else ret tt) ;;
  ev' <- lift (run_event payload) ;;
  (if eq_str ev' "pull_request" then
     prs <- lift (wr <- subscript payload "workflow_run" ;;
                  subscript wr "pull_requests")%result ;;
     (if truthy prs then
        u <- lift (repo <- subscript payload "repository" ;;
                   html <- subscript repo "html_url" ;;
                   wr <- subscript payload "workflow_run" ;;
                   prs' <- subscript wr "pull_requests" ;;
                   pr <- subscript0 prs' ;;
                   id <- subscript pr "id" ;;
                   Ok (py_str html ++ "/pulls/" ++ py_str id)%string)%result ;;
        set_url u
      else ret tt) ;;
     t <- lift (repo_title payload "Pull Request Workflows") ;;
     set_title t ;;
     actor_pfp <- lift (wr <- subscript payload "workflow_run" ;;
                        actor <- subscript wr "triggering_actor" ;;
                        py_get actor "avatar_url")%result ;;
     name <- lift (triggering_actor payload "login") ;;
     link <- lift (triggering_actor payload "html_url") ;;
     set_author name link actor_pfp
   else ret tt) ;;
  self <- get_self ;;
  match message self with
  | Some h => message_edit r h
  | None => ret tt
  end.

Definition handle_check_run (payload : json) : M unit := ret tt.

Definition handle_check_suite (payload : json) : M unit := ret tt.

(** ** The endpoint *)

(** [cache = cachetools.TTLCache(maxsize=100, ttl=10 * 60)]. *)
Definition cache_maxsize : nat := 100.
Definition cache_ttl : Z := 10 * 60.

Definition cache_t : Type := TTLCache.t WorkflowEmbed.

Definition accepted_event (event : string) : bool :=
  String.eqb event "workflow_job" || String.eqb event "check_run"
  || String.eqb event "workflow_run".

(** [params['thread']], set only [if thread_id:]. *)
Definition thread_param (thread_id : option Z) : option Z :=
  match thread_id with
  | Some t => if Z.eqb t 0 then None else Some t
  | None => None
  end.

(** [id = payload[event]['head_sha']], hashed by the cache lookup. *)
Definition event_key (event : string) (payload : json) : result hkey :=
  (ev <- subscript payload event ;;
   id <- subscript ev "head_sha" ;;
   py_hash id)%result.

(** One run of the endpoint at clock reading [now], where [r] is Discord's
    answer to the outbound call of this run.  The result is the store
    afterwards, the outbound calls made, and the value returned or the
    exception that escapes. *)
Definition receive_event (now : Z) (r : reply) (payload : json)
    (webhook_id : Z) (webhook_token : string) (event : string)
    (thread_id : option Z) (cache : cache_t)
  : cache_t * list action * result unit :=
  if negb (accepted_event event) then (cache, [], Ok tt)
  else
    match event_key event payload with
    | Raise e => (cache, [], Raise e)
    | Ok id =>
        match TTLCache.get now cache id with
        | None =>
            match new_WorkflowEmbed event payload with
            | Raise e => (cache, [], Raise e)
            | Ok obj =>
                match (if String.eqb event "workflow_run"
                       then handle_workflow_run r payload
                       else ret tt) obj with
                | (_, acts, Raise e) => (cache, acts, Raise e)
                | (obj1, acts, Ok _) =>
                    let cache1 :=
                      TTLCache.set cache_maxsize cache_ttl now cache id obj1 in
                    let send :=
                      Send webhook_id webhook_token (thread_param thread_id)
                           (embed obj1) in
                    match r with
                    | Failed => (cache1, acts ++ [send], Raise HTTPException)
                    | Delivered h =>
                        match TTLCache.get now cache1 id with
                        | None => (cache1, acts ++ [send], Raise (KeyError id))
                        | Some o =>
                            (TTLCache.mutate id (with_message (Some h) o) cache1,
                             acts ++ [send], Ok tt)
                        end
                    end
                end
            end
        | Some obj =>
            match (if String.eqb event "check_run"
                   then handle_check_run payload
                   else ret tt) obj with
            | (obj1, acts1, Raise e) =>
                (TTLCache.mutate id obj1 cache, acts1, Raise e)
            | (obj1, acts1, Ok _) =>
                match (if String.eqb event "workflow_job"
                       then handle_workflow_job r payload
                       else ret tt) obj1 with
                | (obj2, acts2, res) =>
                    (TTLCache.mutate id obj2 cache, acts1 ++ acts2, res)
                end
            end
        end
    end.

(** What Discord's answer makes of a call of the endpoint. *)
Definition outcome (r : reply) : result unit :=
  match r with
  | Delivered _ => Ok tt
  | Failed => Raise HTTPException
  end.

(** The store after the create path has stored [obj] under [id] and
    Discord has answered [r]. *)
Definition stored (now : Z) (r : reply) (id : hkey) (obj : WorkflowEmbed)
    (cache : cache_t) : cache_t :=
  let cache1 := TTLCache.set cache_maxsize cache_ttl now cache id obj in
  match r with
  | Delivered h => TTLCache.mutate id (with_message (Some h) obj) cache1
  | Failed => cache1
  end.

(** A sequence of deliveries, oldest first. *)
Record delivery : Type := mkDelivery {
  d_now : Z;
  d_reply : reply;
  d_payload : json;
  d_webhook_id : Z;
  d_webhook_token : string;
  d_event : string;
  d_thread_id : option Z
}.

Definition deliver (d : delivery) (cache : cache_t)
  : cache_t * list action * result unit :=
  receive_event (d_now d) (d_reply d) (d_payload d) (d_webhook_id d)
                (d_webhook_token d) (d_event d) (d_thread_id d) cache.

(** The store after a sequence of deliveries. *)
Definition deliver_all (ds : list delivery) (cache : cache_t) : cache_t :=
  fold_left (fun c d => fst (fst (deliver d c))) ds cache.

(** A job update for the record stored under [id], delivered while the
    entry with expiry [expiry] is live. *)
Definition job_delivery_for (id : hkey) (expiry : Z) (d : delivery) : Prop :=
  d_event d = "workflow_job" /\
  event_key "workflow_job" (d_payload d) = Ok id /\
  d_now d < expiry.

(** ** Job updates as the aggregator reads them *)

(** The fields [handle_workflow_job] reads from a payload: the job-run-id
    as a dictionary key, the status marker and the job name. *)
Record JobUpdate : Type := mkJobUpdate {
  ju_run_id : hkey;
  ju_marker : string;
  ju_name : json
}.

Definition is_job_update (payload : json) (u : JobUpdate) : Prop :=
  exists wj run_id,
    subscript payload "workflow_job" = Ok wj /\
    determine_color wj = Ok (ju_marker u) /\
    subscript wj "workflow_name" = Ok (ju_name u) /\
    subscript wj "run_id" = Ok run_id /\
    py_hash run_id = Ok (ju_run_id u).

Definition ju_entry (u : JobUpdate) : hkey * Workflow :=
  (ju_run_id u, {| wcolor := ju_marker u; wname := ju_name u |}).

(** The record after a run of [handle_workflow_job]. *)
Definition after_job (self : WorkflowEmbed) (ev : reply * json)
  : WorkflowEmbed :=
  fst (fst (handle_workflow_job (fst ev) (snd ev) self)).

(** The record after a sequence of job updates, each handled in turn. *)
Definition run_jobs (evs : list (reply * json)) (self : WorkflowEmbed)
  : WorkflowEmbed :=
  fold_left after_job evs self.

(** The record after lines 61-62 of [handle_workflow_job] for the job
    update [u]: the entry is assigned and the description rendered anew. *)
Definition upsert_job (u : JobUpdate) (self : WorkflowEmbed) : WorkflowEmbed :=
  let self1 :=
    with_workflows
      (dict_set (ju_run_id u) (snd (ju_entry u)) (workflows self)) self in
  with_embed (with_description (create_description self1) (embed self1)) self1.

(** What [handle_workflow_job] does after the mutation: the edit of the
    stored message, or the failed attribute access on [None]. *)
Definition job_publish (r : reply) (self : WorkflowEmbed)
  : list action * result unit :=
  match message self with
  | Some h => ([Edit h (embed self)], outcome r)
  | None => ([], Raise AttributeError)
  end.

(** The description of a record agrees with its jobs: none before the
    first job update, the rendering of the jobs afterwards. *)
Definition in_sync (self : WorkflowEmbed) : Prop :=
  (workflows self = [] /\ description (embed self) = None) \/
  description (embed self) = Some (create_description self).

Definition record_ok (self : WorkflowEmbed) : Prop :=
  color (embed self) = og_blurple /\
  title (embed self) <> None /\
  url (embed self) <> None /\
  NoDup (dict_keys (workflows self)) /\
  in_sync self.

(** A delivery of any kind whose correlation key is [id], made while the
    entry with expiry [expiry] is live. *)
Definition delivery_for (id : hkey) (expiry : Z) (d : delivery) : Prop :=
  event_key (d_event d) (d_payload d) = Ok id /\ d_now d < expiry.

(** The store and the outbound calls after a sequence of deliveries. *)
Definition deliver_log (ds : list delivery) (cache : cache_t)
  : cache_t * list action :=
  fold_left
    (fun (st : cache_t * list action) d =>
       match deliver d (fst st) with
       | (cache', acts, _) => (cache', snd st ++ acts)
       end)
    ds (cache, []).

Definition action_embed (a : action) : Embed :=
  match a with
  | Send _ _ _ e => e
  | Edit _ e => e
  end.

(** The record [WorkflowEmbed(event, payload)] builds from the repository
    name, the repository link and the head commit SHA of the payload. *)
Definition first_record (name html sha : json) : WorkflowEmbed :=
  {| embed :=
       {| color := og_blurple;
          title := Some ("[" ++ py_str name ++ "] Workflows")%string;
          url := Some (py_str html ++ "/commit/" ++ py_str sha)%string;
          description := None;
          author := None |};
     workflows := [];
     message := None |}.

(** The record of a first pull-request run: pull-request title, the link
    [link'], the triggering actor with avatar. *)
Definition pull_request_record (nm login link avatar : json) (link' : string)
  : WorkflowEmbed :=
  {| embed :=
       {| color := og_blurple;
          title := Some ("[" ++ py_str nm ++ "] Pull Request Workflows")%string;
          url := Some link';
          description := None;
          author := Some {| author_name := py_str login;
                            author_url := opt_str link;
                            author_icon_url := opt_str avatar |} |};
     workflows := [];
     message := None |}.

(** ** The payload reads of a call *)

(** One read of a payload value: [v[k]], [v.get(k, None)] or [v[0]]. *)
Inductive step : Type :=
| Field (k : string)
| Optional (k : string)
| First.

Definition read_step (v : json) (s : step) : result json :=
  match s with
  | Field k => subscript v k
  | Optional k => py_get v k
  | First => subscript0 v
  end.

(** A chain of reads, as in [payload['workflow_run']['event']]. *)
Fixpoint resolve (v : json) (p : list step) : result json :=
  match p with
  | [] => Ok v
  | s :: p' => rbind (read_step v s) (fun v' => resolve v' p')
  end.


(** [id = payload[event]['head_sha']] (line 102). *)
Definition key_read (event : string) : list step :=
  [Field event; Field "head_sha"].




(** ** Sample payloads and stores *)

(** An instance of [py_str] for running the model on the samples: exact on
    strings, [None], booleans and integers; lists and dicts do not occur in
    the interpolated fields of the samples. *)
Definition str_of_scalar (v : json) : string :=
  match v with
  | JStr s => s
  | JNull => "None"
  | JBool true => "True"
  | JBool false => "False"
  | JNum z => NilZero.string_of_int (Z.to_int z)
  | JArr _ | JObj _ => ""
  end.

Definition repository : json :=
  JObj [("name", JStr "BGAW");
        ("html_url", JStr "https://github.com/LightSage/BGAW")].

Definition job_payload (sha : string) (run_id : Z) (name : string)
    (status conclusion : json) : json :=
  JObj [("workflow_job",
         JObj [("head_sha", JStr sha); ("run_id", JNum run_id);
               ("workflow_name", JStr name);
               ("status", status); ("conclusion", conclusion)]);
        ("repository", repository)].

Definition run_payload (sha trigger : string) : json :=
  JObj [("workflow_run",
         JObj [("head_sha", JStr sha); ("event", JStr trigger);
               ("triggering_actor",
                JObj [("login", JStr "LightSage");
                      ("html_url", JStr "https://github.com/LightSage");
                      ("avatar_url", JStr "https://avatars.example/1")]);
               ("pull_requests", JArr [])]);
        ("repository", repository)].

Definition pull_request_payload (sha : string) (pull_requests : list json)
  : json :=
  JObj [("workflow_run",
         JObj [("head_sha", JStr sha); ("event", JStr "pull_request");
               ("triggering_actor",
                JObj [("login", JStr "LightSage");
                      ("html_url", JStr "https://github.com/LightSage");
                      ("avatar_url", JStr "https://avatars.example/1")]);
               ("pull_requests", JArr pull_requests)]);
        ("repository", repository)].

Definition check_payload (sha : string) : json :=
  JObj [("check_run", JObj [("head_sha", JStr sha)]);
        ("repository", repository)].

Definition job_queued : json := job_payload "sha1" 1 "CI" (JStr "queued") JNull.
Definition job_in_progress : json :=
  job_payload "sha1" 1 "CI" (JStr "in_progress") JNull.
Definition job_failed : json :=
  job_payload "sha1" 2 "Lint" (JStr "completed") (JStr "failure").

(** The embed of a record created for commit [sha1] of the repository. *)
Definition embed_sha1 : Embed :=
  {| color := og_blurple;
     title := Some "[BGAW] Workflows";
     url := Some "https://github.com/LightSage/BGAW/commit/sha1";
     description := None;
     author := None |}.

(** The store after a first event for [sha1] at time 0 whose send was
    answered with message 1. *)
Definition published_store : cache_t :=
  [TTLCache.mkLink (KStr "sha1") 600
     {| embed := embed_sha1; workflows := []; message := Some 1%nat |}].

(** The store after a first event for [sha1] at time 0 whose send failed. *)
Definition unpublished_store : cache_t :=
  [TTLCache.mkLink (KStr "sha1") 600
     {| embed := embed_sha1; workflows := []; message := None |}].

(** Three deliveries for [sha1] during the lifetime of its record. *)
Definition deliveries_sha1 : list delivery :=
  [mkDelivery 5 (Delivered 2%nat) job_in_progress 42 "token" "workflow_job" None;
   mkDelivery 7 (Delivered 3%nat) (check_payload "sha1") 42 "token"
              "check_run" None;
   mkDelivery 599 Failed (run_payload "sha1" "workflow_dispatch") 42 "token"
              "workflow_run" None].

(** * Properties *)

(** ** Keys and dictionaries *)

Lemma hkey_eqb_eq (a b : hkey) : hkey_eqb a b = true <-> a = b.
Proof.
  destruct a, b; simpl; split; intro H; try discriminate; try reflexivity.
  - apply Z.eqb_eq in H. now subst.
  - injection H as ->. apply Z.eqb_refl.
  - apply String.eqb_eq in H. now subst.
  - injection H as ->. apply String.eqb_refl.
Qed.

Lemma hkey_eqb_refl (a : hkey) : hkey_eqb a a = true.
Proof. now apply hkey_eqb_eq. Qed.

Lemma hkey_eqb_neq (a b : hkey) : hkey_eqb a b = false <-> a <> b.
Proof.
  split.
  - intros H E. apply hkey_eqb_eq in E. congruence.
  - intro H. destruct (hkey_eqb a b) eqn:E; [|reflexivity].
    apply hkey_eqb_eq in E. contradiction.
Qed.

Lemma eq_str_true (v : json) (s : string) : eq_str v s = true <-> v = JStr s.
Proof.
  destruct v; simpl; split; intro H; try discriminate.
  - apply String.eqb_eq in H. now subst.
  - injection H as ->. apply String.eqb_refl.
Qed.

Lemma eq_str_false (v : json) (s : string) : eq_str v s = false <-> v <> JStr s.
Proof.
  split.
  - intros H E. apply eq_str_true in E. congruence.
  - intro H. destruct (eq_str v s) eqn:E; [|reflexivity].
    apply eq_str_true in E. contradiction.
Qed.

Section Dict.
Context {V : Type}.
Implicit Types (d : dict V) (k : hkey) (v : V).

Lemma dict_get_set_same d k v : dict_get k (dict_set k v d) = Some v.
Proof.
  induction d as [|[k' v'] d IH]; simpl.
  - now rewrite hkey_eqb_refl.
  - destruct (hkey_eqb k k') eqn:E; simpl; rewrite E; auto.
Qed.

Lemma dict_get_set_other d k k' v :
  k <> k' -> dict_get k' (dict_set k v d) = dict_get k' d.
Proof.
  intro Hne. induction d as [|[k0 v0] d IH]; simpl.
  - assert (hkey_eqb k' k = false) as -> by (apply hkey_eqb_neq; congruence).
    reflexivity.
  - destruct (hkey_eqb k k0) eqn:E; simpl.
    + apply hkey_eqb_eq in E. subst k0.
      assert (hkey_eqb k' k = false) as -> by (apply hkey_eqb_neq; congruence).
      reflexivity.
    + now rewrite IH.
Qed.

Lemma dict_set_fresh d k v :
  ~ In k (dict_keys d) -> dict_set k v d = d ++ [(k, v)].
Proof.
  induction d as [|[k' v'] d IH]; simpl; intro Hn; [reflexivity|].
  destruct (hkey_eqb k k') eqn:E.
  - apply hkey_eqb_eq in E. subst. tauto.
  - f_equal. apply IH. tauto.
Qed.

Lemma dict_set_present d k v :
  In k (dict_keys d) -> dict_keys (dict_set k v d) = dict_keys d.
Proof.
  induction d as [|[k' v'] d IH]; simpl; intro Hin; [contradiction|].
  destruct (hkey_eqb k k') eqn:E; simpl; [reflexivity|].
  f_equal. apply IH. destruct Hin as [->|]; [|assumption].
  now rewrite hkey_eqb_refl in E.
Qed.

Lemma dict_keys_set_In d k v k0 :
  In k0 (dict_keys (dict_set k v d)) <-> In k0 (dict_keys d) \/ k0 = k.
Proof.
  induction d as [|[k' v'] d IH]; simpl.
  - intuition congruence.
  - destruct (hkey_eqb k k') eqn:E; simpl.
    + apply hkey_eqb_eq in E. subst. intuition congruence.
    + rewrite IH. tauto.
Qed.

Lemma dict_keys_set_NoDup d k v :
  NoDup (dict_keys d) -> NoDup (dict_keys (dict_set k v d)).
Proof.
  intro Hnd. destruct (in_dec
    (fun a b => match hkey_eqb a b as x return hkey_eqb a b = x -> _ with
                | true => fun E => left (proj1 (hkey_eqb_eq a b) E)
                | false => fun E => right (proj1 (hkey_eqb_neq a b) E)
                end eq_refl) k (dict_keys d)) as [Hin|Hn].
  - now rewrite dict_set_present.
  - rewrite dict_set_fresh by assumption. unfold dict_keys.
    rewrite map_app. simpl. apply NoDup_app; auto.
    + constructor; [intros []|constructor].
    + intros x Hx [<-|[]]. contradiction.
Qed.

End Dict.

(** ** Status markers *)

Lemma markers_distinct :
  NoDup [LARGE_RED_CIRCLE; LARGE_GREEN_CIRCLE; LARGE_YELLOW_CIRCLE;
         WindowsLoading; BLACK_QUESTION_MARK_ORNAMENT].
Proof.
  repeat constructor; simpl; intuition discriminate.
Qed.

(** C7. For a job payload that carries [conclusion] and [status], the
    marker follows the precedence: conclusion "failure" gives the red
    circle; otherwise conclusion "success" gives the green circle;
    otherwise status "queued" gives the yellow circle; otherwise status
    "in_progress" gives the loading marker; otherwise the question mark. *)
Theorem determine_color_precedence (payload c s : json) :
  subscript payload "conclusion" = Ok c ->
  subscript payload "status" = Ok s ->
  (c = JStr "failure" ->
   determine_color payload = Ok LARGE_RED_CIRCLE) /\
  (c <> JStr "failure" -> c = JStr "success" ->
   determine_color payload = Ok LARGE_GREEN_CIRCLE) /\
  (c <> JStr "failure" -> c <> JStr "success" -> s = JStr "queued" ->
   determine_color payload = Ok LARGE_YELLOW_CIRCLE) /\
  (c <> JStr "failure" -> c <> JStr "success" -> s <> JStr "queued" ->
   s = JStr "in_progress" ->
   determine_color payload = Ok WindowsLoading) /\
  (c <> JStr "failure" -> c <> JStr "success" -> s <> JStr "queued" ->
   s <> JStr "in_progress" ->
   determine_color payload = Ok BLACK_QUESTION_MARK_ORNAMENT).
Proof.
  intros Hc Hs. unfold determine_color. rewrite Hc, Hs. simpl.
  repeat split; intros;
    repeat match goal with
           | H : _ = JStr _ |- _ => apply eq_str_true in H; rewrite H
           | H : _ <> JStr _ |- _ => apply eq_str_false in H; rewrite H
           end; reflexivity.
Qed.

(** ** The jobs mapping under job updates *)

Lemma handle_workflow_job_workflows r payload self u :
  is_job_update payload u ->
  workflows (after_job self (r, payload)) =
  dict_set (ju_run_id u) (snd (ju_entry u)) (workflows self).
Proof.
  intros (wj & run_id & Hwj & Hc & Hn & Hr & Hh).
  unfold after_job, handle_workflow_job, bind, lift, modify, get_self,
    message_edit, raise. simpl.
  rewrite Hwj. simpl. rewrite Hc, Hn. simpl. rewrite Hr. simpl. rewrite Hh.
  simpl. destruct (message self); reflexivity.
Qed.

Lemma run_jobs_frame evs us k :
  Forall2 (fun ev u => is_job_update (snd ev) u) evs us ->
  ~ In k (map ju_run_id us) ->
  forall self,
    dict_get k (workflows (run_jobs evs self)) = dict_get k (workflows self).
Proof.
  induction 1 as [|[r p] u evs us Hu _ IH]; intros Hn self; [reflexivity|].
  simpl in *. unfold run_jobs in *. simpl. rewrite IH by tauto.
  rewrite (handle_workflow_job_workflows r p self u Hu).
  apply dict_get_set_other. intuition.
Qed.

Lemma run_jobs_keys evs us :
  Forall2 (fun ev u => is_job_update (snd ev) u) evs us ->
  forall self k,
    In k (dict_keys (workflows (run_jobs evs self))) <->
    In k (dict_keys (workflows self)) \/ In k (map ju_run_id us).
Proof.
  induction 1 as [|[r p] u evs us Hu _ IH]; intros self k; simpl.
  - tauto.
  - unfold run_jobs in *. simpl. rewrite IH.
    rewrite (handle_workflow_job_workflows r p self u Hu).
    rewrite dict_keys_set_In. intuition.
Qed.

Lemma run_jobs_NoDup evs us :
  Forall2 (fun ev u => is_job_update (snd ev) u) evs us ->
  forall self,
    NoDup (dict_keys (workflows self)) ->
    NoDup (dict_keys (workflows (run_jobs evs self))).
Proof.
  induction 1 as [|[r p] u evs us Hu _ IH]; intros self Hnd; [assumption|].
  unfold run_jobs in *. simpl. apply IH.
  rewrite (handle_workflow_job_workflows r p self u Hu).
  now apply dict_keys_set_NoDup.
Qed.

Lemma run_jobs_append evs us :
  Forall2 (fun ev u => is_job_update (snd ev) u) evs us ->
  NoDup (map ju_run_id us) ->
  forall self,
    (forall k, In k (map ju_run_id us) -> ~ In k (dict_keys (workflows self))) ->
    workflows (run_jobs evs self) = workflows self ++ map ju_entry us.
Proof.
  induction 1 as [|[r p] u evs us Hu _ IH]; intros Hnd self Hfresh; simpl.
  - now rewrite app_nil_r.
  - inversion Hnd as [|? ? Hnot Hnd']; subst.
    unfold run_jobs in *. simpl. rewrite IH; [| assumption |].
    + rewrite (handle_workflow_job_workflows r p self u Hu).
      rewrite dict_set_fresh by (apply Hfresh; now left).
      now rewrite <- app_assoc.
    + intros k Hk. rewrite (handle_workflow_job_workflows r p self u Hu).
      rewrite dict_keys_set_In. intros [Hin | ->].
      * apply (Hfresh k); [now right | assumption].
      * contradiction.
Qed.

(** The jobs mapping of a record after job updates with pairwise distinct
    job-run-ids, handled in turn. *)
Lemma run_jobs_entries
    (evs : list (reply * json)) (us : list JobUpdate) (self : WorkflowEmbed) :
  Forall2 (fun ev u => is_job_update (snd ev) u) evs us ->
  NoDup (map ju_run_id us) ->
  NoDup (dict_keys (workflows self)) ->
  let jobs := workflows (run_jobs evs self) in
  NoDup (dict_keys jobs) /\
  (forall k, In k (dict_keys jobs) <->
             In k (dict_keys (workflows self)) \/ In k (map ju_run_id us)) /\
  (forall u, In u us ->
     dict_get (ju_run_id u) jobs =
     Some {| wcolor := ju_marker u; wname := ju_name u |}) /\
  ((forall k, In k (map ju_run_id us) -> ~ In k (dict_keys (workflows self))) ->
   jobs = workflows self ++ map ju_entry us).
Proof.
  intros Hall Hnd Hself jobs. subst jobs.
  split; [now apply (run_jobs_NoDup evs us)|].
  split; [now apply run_jobs_keys|].
  split; [|now apply run_jobs_append].
  clear Hself. revert self.
  induction Hall as [|[r p] u0 evs us Hu Hall IH]; intros self u Hin.
  - destruct Hin.
  - inversion Hnd as [|? ? Hnot Hnd']; subst.
    unfold run_jobs in *. simpl. destruct Hin as [<-|Hin].
    + fold (run_jobs evs (after_job self (r, p))).
      rewrite (run_jobs_frame evs us (ju_run_id u0) Hall Hnot).
      rewrite (handle_workflow_job_workflows r p self u0 Hu).
      apply dict_get_set_same.
    + now apply IH.
Qed.

(** ** The expiring store *)

Section CacheFacts.
Context {V : Type}.
Implicit Types (c : TTLCache.t V) (k : hkey) (v : V) (l : TTLCache.link V).
Implicit Types (m : nat) (ttl now : Z).

Lemma cache_find_key c k l : TTLCache.find k c = Some l -> TTLCache.key l = k.
Proof.
  induction c as [|h c IH]; simpl; [discriminate|].
  destruct (hkey_eqb k (TTLCache.key h)) eqn:E; [|exact IH].
  intros [= <-]. symmetry. now apply hkey_eqb_eq.
Qed.

Lemma cache_find_In c k l : TTLCache.find k c = Some l -> In l c.
Proof.
  induction c as [|h c IH]; simpl; [discriminate|].
  destruct (hkey_eqb k (TTLCache.key h)); [intros [= <-]; now left|].
  intro H. right. now apply IH.
Qed.

Lemma cache_find_notin c k :
  ~ In k (TTLCache.keys c) -> TTLCache.find k c = None.
Proof.
  induction c as [|h c IH]; simpl; [reflexivity|]. intro Hn.
  destruct (hkey_eqb k (TTLCache.key h)) eqn:E.
  - apply hkey_eqb_eq in E. subst. tauto.
  - apply IH. tauto.
Qed.

Lemma cache_find_app_notin c c' k :
  ~ In k (TTLCache.keys c) ->
  TTLCache.find k (c ++ c') = TTLCache.find k c'.
Proof.
  induction c as [|h c IH]; simpl; [reflexivity|]. intro Hn.
  destruct (hkey_eqb k (TTLCache.key h)) eqn:E.
  - apply hkey_eqb_eq in E. subst. tauto.
  - apply IH. tauto.
Qed.

Lemma cache_get_live now c k v :
  TTLCache.get now c k = Some v ->
  exists l, TTLCache.find k c = Some l /\ TTLCache.value l = v /\
            now < TTLCache.expires l.
Proof.
  unfold TTLCache.get, TTLCache.live.
  destruct (TTLCache.find k c) as [l|]; [|discriminate].
  destruct (now <? TTLCache.expires l) eqn:E; [|discriminate].
  intros [= <-]. exists l. repeat split. now apply Z.ltb_lt.
Qed.

Lemma cache_get_expired now c k l :
  TTLCache.find k c = Some l -> TTLCache.expires l <= now ->
  TTLCache.get now c k = None.
Proof.
  unfold TTLCache.get, TTLCache.live. intros -> He.
  assert ((now <? TTLCache.expires l) = false) as -> by (apply Z.ltb_ge; lia).
  reflexivity.
Qed.

Lemma cache_keys_remove c k k' :
  In k' (TTLCache.keys (TTLCache.remove k c)) <->
  In k' (TTLCache.keys c) /\ k' <> k.
Proof.
  unfold TTLCache.keys, TTLCache.remove.
  induction c as [|h c IH]; simpl; [tauto|].
  destruct (hkey_eqb k (TTLCache.key h)) eqn:E; simpl.
  - apply hkey_eqb_eq in E. subst. rewrite IH. intuition congruence.
  - apply hkey_eqb_neq in E. rewrite IH. intuition congruence.
Qed.

Lemma cache_remove_notin c k :
  ~ In k (TTLCache.keys c) -> TTLCache.remove k c = c.
Proof.
  unfold TTLCache.remove.
  induction c as [|h c IH]; simpl; [reflexivity|]. intro Hn.
  destruct (hkey_eqb k (TTLCache.key h)) eqn:E; simpl.
  - apply hkey_eqb_eq in E. subst. tauto.
  - f_equal. apply IH. tauto.
Qed.

Lemma cache_get_remove now c k : TTLCache.get now (TTLCache.remove k c) k = None.
Proof.
  unfold TTLCache.get. rewrite cache_find_notin; [reflexivity|].
  rewrite cache_keys_remove. tauto.
Qed.

Lemma cache_keys_filter_In (f : TTLCache.link V -> bool) c k :
  In k (TTLCache.keys (filter f c)) -> In k (TTLCache.keys c).
Proof.
  unfold TTLCache.keys. rewrite !in_map_iff.
  intros (l & Hk & Hl). apply filter_In in Hl. exists l. tauto.
Qed.

Lemma cache_keys_filter_NoDup (f : TTLCache.link V -> bool) c :
  NoDup (TTLCache.keys c) -> NoDup (TTLCache.keys (filter f c)).
Proof.
  induction c as [|h c IH]; simpl; intro Hnd; [constructor|].
  inversion Hnd as [|? ? Hnot Hnd']; subst.
  destruct (f h); simpl; auto.
  constructor; auto. intro Hin. apply Hnot.
  now apply (cache_keys_filter_In f).
Qed.

Lemma cache_keys_make_room_In m c k :
  In k (TTLCache.keys (TTLCache.make_room m c)) -> In k (TTLCache.keys c).
Proof.
  unfold TTLCache.make_room, TTLCache.keys. set (n := (length c + 1 - m)%nat).
  intro Hin. rewrite <- (firstn_skipn n c), map_app. apply in_or_app. now right.
Qed.

Lemma cache_keys_make_room_NoDup m c :
  NoDup (TTLCache.keys c) -> NoDup (TTLCache.keys (TTLCache.make_room m c)).
Proof.
  unfold TTLCache.make_room, TTLCache.keys. set (n := (length c + 1 - m)%nat).
  intro Hnd. rewrite <- (firstn_skipn n c), map_app in Hnd.
  now apply NoDup_app_remove_l in Hnd.
Qed.

Lemma cache_length_make_room m c :
  (1 <= m)%nat -> (length (TTLCache.make_room m c) <= m - 1)%nat.
Proof.
  intro Hm. unfold TTLCache.make_room. rewrite length_skipn. lia.
Qed.

Lemma cache_keys_set m ttl now c k v :
  TTLCache.keys (TTLCache.set m ttl now c k v) =
  TTLCache.keys (TTLCache.make_room m (TTLCache.remove k (TTLCache.expire now c)))
    ++ [k].
Proof. unfold TTLCache.set, TTLCache.keys. now rewrite map_app. Qed.

Lemma cache_set_fresh_part m now c k :
  ~ In k (TTLCache.keys
            (TTLCache.make_room m (TTLCache.remove k (TTLCache.expire now c)))).
Proof.
  intro Hin. apply cache_keys_make_room_In in Hin.
  apply cache_keys_remove in Hin. tauto.
Qed.

Lemma cache_keys_set_NoDup m ttl now c k v :
  NoDup (TTLCache.keys c) ->
  NoDup (TTLCache.keys (TTLCache.set m ttl now c k v)).
Proof.
  intro Hnd. rewrite cache_keys_set. apply NoDup_app.
  - apply cache_keys_make_room_NoDup.
    unfold TTLCache.remove, TTLCache.expire.
    now do 2 apply cache_keys_filter_NoDup.
  - constructor; [intros []|constructor].
  - intros x Hx [<-|[]]. now apply cache_set_fresh_part in Hx.
Qed.

Lemma cache_length_set m ttl now c k v :
  (1 <= m)%nat -> (length (TTLCache.set m ttl now c k v) <= m)%nat.
Proof.
  intro Hm. unfold TTLCache.set. rewrite length_app. simpl.
  pose proof (cache_length_make_room m
                (TTLCache.remove k (TTLCache.expire now c)) Hm). lia.
Qed.

Lemma cache_find_set m ttl now c k v :
  TTLCache.find k (TTLCache.set m ttl now c k v) =
  Some (TTLCache.mkLink k (now + ttl) v).
Proof.
  unfold TTLCache.set. rewrite cache_find_app_notin
    by apply cache_set_fresh_part.
  simpl. now rewrite hkey_eqb_refl.
Qed.

Lemma cache_get_set m ttl now c k v :
  0 < ttl -> TTLCache.get now (TTLCache.set m ttl now c k v) k = Some v.
Proof.
  intro Ht. unfold TTLCache.get. rewrite cache_find_set.
  unfold TTLCache.live. simpl.
  assert ((now <? now + ttl) = true) as -> by (apply Z.ltb_lt; lia).
  reflexivity.
Qed.

Lemma cache_set_remove m ttl now c k v :
  TTLCache.set m ttl now (TTLCache.remove k c) k v =
  TTLCache.set m ttl now c k v.
Proof.
  unfold TTLCache.set. do 2 f_equal.
  unfold TTLCache.remove, TTLCache.expire.
  induction c as [|h c IH]; simpl; [reflexivity|].
  destruct (hkey_eqb k (TTLCache.key h)) eqn:E; simpl.
  - destruct (TTLCache.live now h); simpl; [rewrite E|]; exact IH.
  - destruct (TTLCache.live now h); simpl; [rewrite E; simpl; f_equal|];
      exact IH.
Qed.

Lemma cache_expire_remove_expired now c k l :
  NoDup (TTLCache.keys c) ->
  TTLCache.find k c = Some l -> TTLCache.expires l <= now ->
  TTLCache.expire now (TTLCache.remove k c) = TTLCache.expire now c.
Proof.
  unfold TTLCache.expire.
  induction c as [|h c IH]; simpl; intros Hnd Hf He; [discriminate|].
  inversion Hnd as [|? ? Hnot Hnd']; subst.
  destruct (hkey_eqb k (TTLCache.key h)) eqn:E; simpl.
  - injection Hf as ->. apply hkey_eqb_eq in E. subst k.
    fold (TTLCache.remove (TTLCache.key l) c).
    rewrite cache_remove_notin by assumption.
    unfold TTLCache.live.
    assert ((now <? TTLCache.expires l) = false) as -> by (apply Z.ltb_ge; lia).
    reflexivity.
  - destruct (TTLCache.live now h); [f_equal|]; now apply IH.
Qed.

Lemma cache_keys_mutate c k v :
  TTLCache.keys (TTLCache.mutate k v c) = TTLCache.keys c.
Proof.
  induction c as [|h c IH]; simpl; [reflexivity|].
  destruct (hkey_eqb k (TTLCache.key h)); simpl; [reflexivity|].
  f_equal. exact IH.
Qed.

Lemma cache_length_mutate c k v :
  length (TTLCache.mutate k v c) = length c.
Proof.
  induction c as [|h c IH]; simpl; [reflexivity|].
  destruct (hkey_eqb k (TTLCache.key h)); simpl; [reflexivity|].
  f_equal. exact IH.
Qed.

Lemma cache_mutate_same c k l :
  TTLCache.find k c = Some l -> TTLCache.mutate k (TTLCache.value l) c = c.
Proof.
  induction c as [|h c IH]; simpl; [discriminate|].
  destruct (hkey_eqb k (TTLCache.key h)).
  - intros [= <-]. now destruct h.
  - intro H. f_equal. now apply IH.
Qed.

Lemma cache_mutate_get now c k v :
  TTLCache.get now c k = Some v -> TTLCache.mutate k v c = c.
Proof.
  intro H. apply cache_get_live in H as (l & Hf & <- & _).
  now apply cache_mutate_same.
Qed.

Lemma cache_find_mutate c k v l :
  TTLCache.find k c = Some l ->
  TTLCache.find k (TTLCache.mutate k v c) =
  Some (TTLCache.mkLink (TTLCache.key l) (TTLCache.expires l) v).
Proof.
  induction c as [|h c IH]; simpl; [discriminate|].
  destruct (hkey_eqb k (TTLCache.key h)) eqn:E; simpl.
  - intros [= <-]. now rewrite E.
  - rewrite E. exact IH.
Qed.

Lemma cache_get_mutate now c k v v0 :
  TTLCache.get now c k = Some v0 ->
  TTLCache.get now (TTLCache.mutate k v c) k = Some v.
Proof.
  intro H. apply cache_get_live in H as (l & Hf & _ & Hl).
  unfold TTLCache.get. rewrite (cache_find_mutate c k v l Hf).
  unfold TTLCache.live. simpl.
  assert ((now <? TTLCache.expires l) = true) as -> by now apply Z.ltb_lt.
  reflexivity.
Qed.

End CacheFacts.

(** ** What the handlers touch *)

(** Case analysis on every payload read of a handler, in program order. *)
Ltac step_handler :=
  repeat (simpl in *;
          match goal with
          | |- context [match ?x with _ => _ end] =>
              match type of x with
              | result _ => destruct x eqn:?
              | bool => destruct x eqn:?
              | option _ => destruct x eqn:?
              | reply => destruct x eqn:?
              end
          | |- context [if ?x then _ else _] => destruct x eqn:?
          end).

Ltac unfold_handler :=
  unfold handle_workflow_job, handle_workflow_run, handle_check_run,
    new_WorkflowEmbed, create_embed, set_title, set_url, set_author,
    message_edit, bind, lift, modify, get_self, ret, raise,
    repo_title, triggering_actor, run_event, rbind in *.

Lemma new_WorkflowEmbed_fresh event payload obj :
  new_WorkflowEmbed event payload = Ok obj ->
  message obj = None /\ workflows obj = [] /\
  description (embed obj) = None /\ author (embed obj) = None.
Proof.
  unfold_handler. step_handler; intros [= <-]; simpl; auto.
Qed.

Lemma handle_workflow_run_unpublished r payload self :
  message self = None ->
  forall self' acts res,
    handle_workflow_run r payload self = (self', acts, res) ->
    acts = [] /\ message self' = None /\ workflows self' = workflows self /\
    description (embed self') = description (embed self).
Proof.
  intros Hm self' acts res. unfold_handler.
  step_handler; rewrite ?Hm; intros [= <- <- <-]; simpl; auto;
    try congruence.
Qed.

Lemma handle_workflow_job_frame r payload self :
  forall self' acts res,
    handle_workflow_job r payload self = (self', acts, res) ->
    title (embed self') = title (embed self) /\
    author (embed self') = author (embed self) /\
    url (embed self') = url (embed self) /\
    message self' = message self.
Proof.
  intros self' acts res. unfold_handler.
  step_handler; intros [= <- <- <-]; simpl; auto.
Qed.

Lemma handle_workflow_job_KeyError r payload self self' acts k :
  handle_workflow_job r payload self = (self', acts, Raise (KeyError k)) ->
  self' = self /\ acts = [].
Proof.
  unfold_handler. step_handler; intros [= <- <- ?]; auto; discriminate.
Qed.

(** ** The three paths of the endpoint *)

Lemma cache_ttl_pos : 0 < cache_ttl.
Proof. reflexivity. Qed.

Lemma cache_maxsize_pos : (1 <= cache_maxsize)%nat.
Proof. unfold cache_maxsize. lia. Qed.

Lemma receive_event_rejected now r payload wid tok event tid cache :
  accepted_event event = false ->
  receive_event now r payload wid tok event tid cache = (cache, [], Ok tt).
Proof. intro H. unfold receive_event. now rewrite H. Qed.

Lemma receive_event_existing now r payload wid tok event tid cache id obj :
  accepted_event event = true ->
  event_key event payload = Ok id ->
  TTLCache.get now cache id = Some obj ->
  receive_event now r payload wid tok event tid cache =
  if String.eqb event "workflow_job"
  then match handle_workflow_job r payload obj with
       | (obj', acts, res) => (TTLCache.mutate id obj' cache, acts, res)
       end
  else (cache, [], Ok tt).
Proof.
  intros Ha Hk Hg. unfold receive_event. rewrite Ha, Hk, Hg. simpl.
  destruct (String.eqb event "check_run") eqn:E.
  - apply String.eqb_eq in E. subst event. simpl.
    unfold handle_check_run, ret. simpl.
    now rewrite (cache_mutate_get now cache id obj Hg).
  - unfold ret. simpl. destruct (String.eqb event "workflow_job").
    + now destruct (handle_workflow_job r payload obj) as [[? ?] ?].
    + now rewrite (cache_mutate_get now cache id obj Hg).
Qed.

Lemma receive_event_create now r payload wid tok event tid cache id obj :
  accepted_event event = true ->
  String.eqb event "workflow_run" = false ->
  event_key event payload = Ok id ->
  TTLCache.get now cache id = None ->
  new_WorkflowEmbed event payload = Ok obj ->
  receive_event now r payload wid tok event tid cache =
  (stored now r id obj cache,
   [Send wid tok (thread_param tid) (embed obj)], outcome r).
Proof.
  intros Ha He Hk Hg Hn. unfold receive_event, stored, outcome.
  rewrite Ha, Hk, Hg, Hn, He. simpl. unfold ret. simpl.
  destruct r as [h|]; [|reflexivity].
  now rewrite (cache_get_set _ _ _ _ _ _ cache_ttl_pos).
Qed.

Lemma receive_event_create_run now r payload wid tok tid cache id obj obj1 acts :
  event_key "workflow_run" payload = Ok id ->
  TTLCache.get now cache id = None ->
  new_WorkflowEmbed "workflow_run" payload = Ok obj ->
  handle_workflow_run r payload obj = (obj1, acts, Ok tt) ->
  receive_event now r payload wid tok "workflow_run" tid cache =
  (stored now r id obj1 cache,
   [Send wid tok (thread_param tid) (embed obj1)], outcome r).
Proof.
  intros Hk Hg Hn Hh. unfold receive_event, stored, outcome.
  simpl. rewrite Hk, Hg, Hn, Hh. simpl.
  apply new_WorkflowEmbed_fresh in Hn as (Hm & _).
  apply (handle_workflow_run_unpublished _ _ _ Hm) in Hh as (-> & _).
  destruct r as [h|]; [|reflexivity].
  now rewrite (cache_get_set _ _ _ _ _ _ cache_ttl_pos).
Qed.

Lemma stored_get now r id obj cache :
  TTLCache.get now (stored now r id obj cache) id =
  Some (match r with
        | Delivered h => with_message (Some h) obj
        | Failed => obj
        end).
Proof.
  unfold stored. destruct r as [h|].
  - apply (cache_get_mutate _ _ _ _ obj).
    apply cache_get_set, cache_ttl_pos.
  - apply cache_get_set, cache_ttl_pos.
Qed.

(** On a key that is absent, an accepted event either escapes with an
    exception before anything is stored or sent, or stores the new record
    and makes one [Send]. *)
Lemma receive_event_absent now r payload wid tok event tid cache id :
  accepted_event event = true ->
  event_key event payload = Ok id ->
  TTLCache.get now cache id = None ->
  (exists e, receive_event now r payload wid tok event tid cache
             = (cache, [], Raise e)) \/
  (exists obj,
     message obj = None /\ workflows obj = [] /\
     description (embed obj) = None /\
     receive_event now r payload wid tok event tid cache =
     (stored now r id obj cache,
      [Send wid tok (thread_param tid) (embed obj)], outcome r)).
Proof.
  intros Ha Hk Hg.
  destruct (new_WorkflowEmbed event payload) as [obj|e] eqn:Hn.
  2:{ left. exists e. unfold receive_event. now rewrite Ha, Hk, Hg, Hn. }
  pose proof (new_WorkflowEmbed_fresh _ _ _ Hn) as (Hm & Hw & Hd & _).
  destruct (String.eqb event "workflow_run") eqn:He.
  - apply String.eqb_eq in He. subst event.
    destruct (handle_workflow_run r payload obj) as [[obj1 acts] res] eqn:Hh.
    pose proof (handle_workflow_run_unpublished _ _ _ Hm _ _ _ Hh)
      as (-> & Hm1 & Hw1 & Hd1).
    destruct res as [[]|e].
    + right. exists obj1. repeat split; try congruence.
      now apply (receive_event_create_run _ _ _ _ _ _ _ _ obj _ []).
    + left. exists e. unfold receive_event. simpl.
      now rewrite Hk, Hg, Hn, Hh.
  - right. exists obj. repeat split; auto.
    now apply receive_event_create.
Qed.

Lemma receive_event_length now r payload wid tok event tid cache :
  (length cache <= cache_maxsize)%nat ->
  (length (fst (fst (receive_event now r payload wid tok event tid cache)))
   <= cache_maxsize)%nat.
Proof.
  intro Hlen. unfold receive_event.
  pose proof (fun c k v => cache_length_set cache_maxsize cache_ttl now c k
                             (v : WorkflowEmbed) cache_maxsize_pos) as Hset.
  repeat match goal with
         | |- context [match ?x with _ => _ end] => destruct x eqn:?
         | |- context [if ?x then _ else _] => destruct x eqn:?
         end; simpl; rewrite ?cache_length_mutate; auto.
Qed.

Lemma receive_event_NoDup now r payload wid tok event tid cache :
  NoDup (TTLCache.keys cache) ->
  NoDup (TTLCache.keys
           (fst (fst (receive_event now r payload wid tok event tid cache)))).
Proof.
  intro Hnd. unfold receive_event.
  pose proof (fun k v => cache_keys_set_NoDup cache_maxsize cache_ttl now cache k
                           (v : WorkflowEmbed) Hnd) as Hset.
  repeat match goal with
         | |- context [match ?x with _ => _ end] => destruct x eqn:?
         | |- context [if ?x then _ else _] => destruct x eqn:?
         end; simpl; rewrite ?cache_keys_mutate; auto.
Qed.

(** A key whose entry has expired and a key without entry take the same
    path through the endpoint. *)
Lemma receive_event_expired_as_removed
    now r payload wid tok event tid cache id l :
  NoDup (TTLCache.keys cache) ->
  event_key event payload = Ok id ->
  TTLCache.find id cache = Some l ->
  TTLCache.expires l <= now ->
  match receive_event now r payload wid tok event tid cache,
        receive_event now r payload wid tok event tid (TTLCache.remove id cache)
  with
  | (c1, acts1, res1), (c2, acts2, res2) =>
      acts1 = acts2 /\ res1 = res2 /\
      TTLCache.expire now c1 = TTLCache.expire now c2
  end.
Proof.
  intros Hnd Hk Hf He.
  pose proof (cache_expire_remove_expired now cache id l Hnd Hf He) as Hx.
  unfold receive_event.
  destruct (accepted_event event); simpl; [|auto].
  rewrite Hk, (cache_get_expired now cache id l Hf He), cache_get_remove.
  destruct (new_WorkflowEmbed event payload) as [obj|e]; [|auto].
  destruct ((if String.eqb event "workflow_run"
             then handle_workflow_run r payload else ret tt) obj)
    as [[obj1 acts] [[]|e]]; [|auto].
  rewrite cache_set_remove.
  destruct r as [h|]; [|auto].
  destruct (TTLCache.get now _ id); auto.
Qed.

(** ** Check events *)

(** C4, amended. A [check_suite] event is dropped at the boundary, and a
    [check_run] event whose key has a live record is accepted: both leave
    the store as it is and make no outbound call.  A [check_run] event that
    is the first for its key stores a new record and makes the initial
    send, like a first event of any accepted kind. *)
Theorem check_events_amended now r payload wid tok tid cache :
  receive_event now r payload wid tok "check_suite" tid cache
  = (cache, [], Ok tt) /\
  (forall id obj,
     event_key "check_run" payload = Ok id ->
     TTLCache.get now cache id = Some obj ->
     receive_event now r payload wid tok "check_run" tid cache
     = (cache, [], Ok tt)) /\
  (forall id obj,
     event_key "check_run" payload = Ok id ->
     TTLCache.get now cache id = None ->
     new_WorkflowEmbed "check_run" payload = Ok obj ->
     receive_event now r payload wid tok "check_run" tid cache
     = (stored now r id obj cache,
        [Send wid tok (thread_param tid) (embed obj)], outcome r)).
Proof.
  split; [reflexivity|]. split.
  - intros id obj Hk Hg.
    now rewrite (receive_event_existing now r payload wid tok "check_run" tid
                   cache id obj eq_refl Hk Hg).
  - intros id obj Hk Hg Hn. now apply receive_event_create.
Qed.

(** A [KeyError] that escapes the endpoint was raised before the store
    was touched and before any outbound call. *)
Lemma key_error_before_any_effect
    now r payload wid tok event tid cache k cache' acts :
  receive_event now r payload wid tok event tid cache
  = (cache', acts, Raise (KeyError k)) ->
  cache' = cache /\ acts = [].
Proof.
  destruct (accepted_event event) eqn:Ha.
  2:{ rewrite receive_event_rejected by assumption. discriminate. }
  destruct (event_key event payload) as [id|e] eqn:Hk.
  2:{ unfold receive_event. rewrite Ha, Hk. simpl. now intros [= <- <- _]. }
  destruct (TTLCache.get now cache id) as [obj|] eqn:Hg.
  - rewrite (receive_event_existing _ _ _ _ _ _ _ _ id obj Ha Hk Hg).
    destruct (String.eqb event "workflow_job"); [|discriminate].
    destruct (handle_workflow_job r payload obj) as [[obj' acts'] res] eqn:Hj.
    intros [= <- <- ->].
    apply handle_workflow_job_KeyError in Hj as [-> ->].
    now rewrite (cache_mutate_get now cache id obj Hg).
  - destruct (receive_event_absent now r payload wid tok event tid cache id
                Ha Hk Hg) as [[e ->]|(obj & _ & _ & _ & ->)].
    + now intros [= <- <- _].
    + destruct r; discriminate.
Qed.

(** ** Expired entries

    C8. The store is configured with at most 100 entries and a
    time-to-live of 600 seconds counted from insertion, and the endpoint
    keeps it within 100 entries.  An entry whose time-to-live has elapsed
    is read as absent, and the endpoint treats its key as a key without
    entry: same outbound calls, same outcome, same live entries afterwards.
    The event then either escapes with an exception before anything is
    stored or sent, or stores a new record, with no jobs and no message
    handle, and makes one [Send]; it never makes an [Edit].  With a payload
    from which the record can be built, the [Send] is made. *)
Theorem expired_entry_is_absent :
  (cache_maxsize = 100%nat /\ cache_ttl = 600) /\
  (forall now cache id (obj : WorkflowEmbed),
     TTLCache.find id (TTLCache.set cache_maxsize cache_ttl now cache id obj)
     = Some (TTLCache.mkLink id (now + 600) obj)) /\
  (forall now r payload wid tok event tid cache,
     (length cache <= 100)%nat ->
     (length (fst (fst (receive_event now r payload wid tok event tid cache)))
      <= 100)%nat) /\
  (forall now r payload wid tok event tid cache id l,
     NoDup (TTLCache.keys cache) ->
     accepted_event event = true ->
     event_key event payload = Ok id ->
     TTLCache.find id cache = Some l ->
     TTLCache.expires l <= now ->
     TTLCache.get now cache id = None /\
     match receive_event now r payload wid tok event tid cache,
           receive_event now r payload wid tok event tid
                         (TTLCache.remove id cache)
     with
     | (c1, acts1, res1), (c2, acts2, res2) =>
         acts1 = acts2 /\ res1 = res2 /\
         TTLCache.expire now c1 = TTLCache.expire now c2
     end /\
     ((exists e, receive_event now r payload wid tok event tid cache
                 = (cache, [], Raise e)) \/
      (exists obj,
         message obj = None /\ workflows obj = [] /\
         receive_event now r payload wid tok event tid cache
         = (stored now r id obj cache,
            [Send wid tok (thread_param tid) (embed obj)], outcome r) /\
         TTLCache.get now (stored now r id obj cache) id
         = Some (match r with
                 | Delivered h => with_message (Some h) obj
                 | Failed => obj
                 end))) /\
     forallb is_send
       (snd (fst (receive_event now r payload wid tok event tid cache))) = true /\
     (forall obj,
        String.eqb event "workflow_run" = false ->
        new_WorkflowEmbed event payload = Ok obj ->
        receive_event now r payload wid tok event tid cache
        = (stored now r id obj cache,
           [Send wid tok (thread_param tid) (embed obj)], outcome r))).
Proof.
  split; [split; reflexivity|].
  split; [intros; apply cache_find_set|].
  split; [intros; now apply receive_event_length|].
  intros now r payload wid tok event tid cache id l Hnd Ha Hk Hf He.
  pose proof (cache_get_expired now cache id l Hf He) as Hg.
  split; [exact Hg|].
  split; [now apply (receive_event_expired_as_removed _ _ _ _ _ _ _ _ id l)|].
  pose proof (receive_event_absent now r payload wid tok event tid cache id
                Ha Hk Hg) as Habs.
  split; [|split].
  - destruct Habs as [?|(obj & Hm & Hw & _ & Hr)]; [now left|].
    right. exists obj. repeat split; auto. apply stored_get.
  - destruct Habs as [[e ->]|(obj & _ & _ & _ & ->)]; reflexivity.
  - intros obj Hev Hn. now apply receive_event_create.
Qed.

(** ** Manual runs *)

Lemma stored_find now r id obj cache :
  TTLCache.find id (stored now r id obj cache) =
  Some (TTLCache.mkLink id (now + cache_ttl)
          (match r with
           | Delivered h => with_message (Some h) obj
           | Failed => obj
           end)).
Proof.
  unfold stored. destruct r as [h|].
  - now rewrite (cache_find_mutate _ _ _ _ (cache_find_set _ _ _ _ _ _)).
  - apply cache_find_set.
Qed.

Lemma handle_workflow_run_dispatch
    r payload self wr actor login link repo nm :
  subscript payload "workflow_run" = Ok wr ->
  subscript wr "event" = Ok (JStr "workflow_dispatch") ->
  subscript wr "triggering_actor" = Ok actor ->
  subscript actor "login" = Ok login ->
  subscript actor "html_url" = Ok link ->
  subscript payload "repository" = Ok repo ->
  subscript repo "name" = Ok nm ->
  message self = None ->
  handle_workflow_run r payload self =
  (with_embed
     (with_author
        {| author_name := py_str login;
           author_url := opt_str link;
           author_icon_url := None |}
        (with_title ("[" ++ py_str nm ++ "] Manually Triggered Workflow")%string
                    (embed self)))
     self,
   [], Ok tt).
Proof.
  intros Hwr Hev Hact Hlogin Hlink Hrepo Hnm Hm. unfold_handler.
  rewrite Hwr. simpl. rewrite Hev. simpl. rewrite Hrepo. simpl.
  rewrite Hnm. simpl. rewrite Hact. simpl. rewrite Hlogin. simpl.
  rewrite Hlink. simpl. rewrite Hm. reflexivity.
Qed.

Lemma job_delivery_keeps id expiry d cache l :
  job_delivery_for id expiry d ->
  TTLCache.find id cache = Some l ->
  TTLCache.expires l = expiry ->
  exists l',
    TTLCache.find id (fst (fst (deliver d cache))) = Some l' /\
    TTLCache.expires l' = expiry /\
    title (embed (TTLCache.value l')) = title (embed (TTLCache.value l)) /\
    author (embed (TTLCache.value l')) = author (embed (TTLCache.value l)).
Proof.
  intros (Hev & Hk & Hnow) Hf He. unfold deliver. rewrite Hev.
  assert (Hg : TTLCache.get (d_now d) cache id = Some (TTLCache.value l)).
  { unfold TTLCache.get, TTLCache.live. rewrite Hf.
    assert ((d_now d <? TTLCache.expires l) = true) as ->
      by (apply Z.ltb_lt; lia).
    reflexivity. }
  rewrite (receive_event_existing _ _ _ _ _ "workflow_job" _ _ id _
             eq_refl Hk Hg). simpl.
  destruct (handle_workflow_job (d_reply d) (d_payload d) (TTLCache.value l))
    as [[obj' acts] res] eqn:Hj. simpl.
  apply handle_workflow_job_frame in Hj as (Ht & Ha & _ & _).
  rewrite (cache_find_mutate _ _ obj' _ Hf).
  eexists. split; [reflexivity|]. simpl. auto.
Qed.

(** C9. A [workflow_run] event triggered by [workflow_dispatch] that is
    the first event of its key stores a record whose title is the
    manually-triggered variant and whose author is the triggering actor,
    name and link, without avatar; job updates delivered afterwards for the
    same key, while that record lives, leave its title and author as they
    are. *)
Theorem manual_run_title_author_kept
    now r payload wid tok tid cache id
    wr sha actor login link repo nm html :
  subscript payload "workflow_run" = Ok wr ->
  subscript wr "head_sha" = Ok sha ->
  py_hash sha = Ok id ->
  subscript wr "event" = Ok (JStr "workflow_dispatch") ->
  subscript wr "triggering_actor" = Ok actor ->
  subscript actor "login" = Ok login ->
  subscript actor "html_url" = Ok link ->
  subscript payload "repository" = Ok repo ->
  subscript repo "name" = Ok nm ->
  subscript repo "html_url" = Ok html ->
  TTLCache.get now cache id = None ->
  let manual_title :=
    ("[" ++ py_str nm ++ "] Manually Triggered Workflow")%string in
  let actor_author :=
    {| author_name := py_str login;
       author_url := opt_str link;
       author_icon_url := None |} in
  let cache1 :=
    fst (fst (receive_event now r payload wid tok "workflow_run" tid cache)) in
  forall ds,
    Forall (job_delivery_for id (now + cache_ttl)) ds ->
    exists l,
      TTLCache.find id (deliver_all ds cache1) = Some l /\
      TTLCache.expires l = now + cache_ttl /\
      title (embed (TTLCache.value l)) = Some manual_title /\
      author (embed (TTLCache.value l)) = Some actor_author.
Proof.
  intros Hwr Hsha Hh Hev Hact Hlogin Hlink Hrepo Hnm Hhtml Hg
         manual_title actor_author cache1 ds Hds.
  assert (Hk : event_key "workflow_run" payload = Ok id).
  { unfold event_key. rewrite Hwr. simpl. now rewrite Hsha. }
  assert (Hn : exists obj, new_WorkflowEmbed "workflow_run" payload = Ok obj).
  { unfold_handler. rewrite Hrepo. simpl. rewrite Hnm. simpl.
    rewrite Hhtml, Hwr. simpl. rewrite Hsha. simpl. eauto. }
  destruct Hn as [obj Hn].
  pose proof (new_WorkflowEmbed_fresh _ _ _ Hn) as (Hm & _).
  pose proof (handle_workflow_run_dispatch r payload obj wr actor login link
                repo nm Hwr Hev Hact Hlogin Hlink Hrepo Hnm Hm) as Hrun.
  assert (Hinit : exists l,
             TTLCache.find id cache1 = Some l /\
             TTLCache.expires l = now + cache_ttl /\
             title (embed (TTLCache.value l)) = Some manual_title /\
             author (embed (TTLCache.value l)) = Some actor_author).
  { subst cache1.
    rewrite (receive_event_create_run _ _ _ _ _ _ _ _ _ _ _ Hk Hg Hn Hrun).
    simpl. rewrite stored_find. eexists. split; [reflexivity|].
    destruct r; simpl; auto. }
  clearbody cache1. clear - Hinit Hds.
  revert cache1 Hinit.
  induction Hds as [|d ds Hd _ IH]; intros cache1 Hinit; [exact Hinit|].
  unfold deliver_all in *. simpl. apply IH.
  destruct Hinit as (l & Hf & He & Ht & Ha).
  destruct (job_delivery_keeps _ _ _ _ _ Hd Hf He) as (l' & Hf' & He' & Ht' & Ha').
  exists l'. repeat split; congruence.
Qed.

(** ** Job updates through the endpoint *)

Lemma deliver_all_jobs id expiry ds :
  Forall (job_delivery_for id expiry) ds ->
  forall cache l,
    TTLCache.find id cache = Some l ->
    TTLCache.expires l = expiry ->
    exists l',
      TTLCache.find id (deliver_all ds cache) = Some l' /\
      TTLCache.expires l' = expiry /\
      TTLCache.value l' =
      run_jobs (map (fun d => (d_reply d, d_payload d)) ds) (TTLCache.value l).
Proof.
  induction 1 as [|d ds Hd _ IH]; intros cache l Hf He.
  - exists l. auto.
  - unfold deliver_all, run_jobs in *. simpl.
    destruct Hd as (Hev & Hk & Hnow).
    assert (Hg : TTLCache.get (d_now d) cache id = Some (TTLCache.value l)).
    { unfold TTLCache.get, TTLCache.live. rewrite Hf.
      assert ((d_now d <? TTLCache.expires l) = true) as ->
        by (apply Z.ltb_lt; lia).
      reflexivity. }
    unfold deliver at 2. rewrite Hev.
    rewrite (receive_event_existing _ _ _ _ _ "workflow_job" _ _ id _
               eq_refl Hk Hg). simpl.
    unfold after_job at 2. simpl.
    destruct (handle_workflow_job (d_reply d) (d_payload d) (TTLCache.value l))
      as [[obj' acts] res]. simpl.
    apply (IH _ _ (cache_find_mutate _ _ obj' _ Hf)). exact He.
Qed.

(** X18. Job updates with pairwise distinct job-run-ids, delivered in turn
    for one correlation key whose record is live: the record's jobs mapping
    afterwards has one entry per job-run-id (its keys are without
    repetition and are the keys it had before together with the updates'
    ids), every update's id maps to the marker and the name of that update,
    and when the record held none of these ids the mapping is the old one
    followed by one entry per update, in order of arrival. *)
Theorem jobs_one_entry_per_run_id
    (ds : list delivery) (us : list JobUpdate)
    (cache : cache_t) (id : hkey) (l : TTLCache.link WorkflowEmbed) :
  TTLCache.find id cache = Some l ->
  Forall (job_delivery_for id (TTLCache.expires l)) ds ->
  Forall2 (fun d u => is_job_update (d_payload d) u) ds us ->
  NoDup (map ju_run_id us) ->
  NoDup (dict_keys (workflows (TTLCache.value l))) ->
  exists l',
    TTLCache.find id (deliver_all ds cache) = Some l' /\
    let before := workflows (TTLCache.value l) in
    let jobs := workflows (TTLCache.value l') in
    NoDup (dict_keys jobs) /\
    (forall k, In k (dict_keys jobs) <->
               In k (dict_keys before) \/ In k (map ju_run_id us)) /\
    (forall u, In u us ->
       dict_get (ju_run_id u) jobs =
       Some {| wcolor := ju_marker u; wname := ju_name u |}) /\
    ((forall k, In k (map ju_run_id us) -> ~ In k (dict_keys before)) ->
     jobs = before ++ map ju_entry us).
Proof.
  intros Hf Hds Hus Hnd Hself.
  destruct (deliver_all_jobs id _ ds Hds cache l Hf eq_refl)
    as (l' & Hf' & _ & Hv).
  exists l'. split; [exact Hf'|]. simpl. rewrite Hv.
  apply run_jobs_entries; auto.
  clear - Hus. induction Hus; simpl; constructor; auto.
Qed.

(** ** Events that the dispatch leaves out *)

(** A job update that is the first event of its key is not applied to the
    record it creates: the record holds no job and the embed sent has no
    description. *)
Lemma first_job_update_not_recorded
    now r payload wid tok tid cache id obj :
  event_key "workflow_job" payload = Ok id ->
  TTLCache.get now cache id = None ->
  new_WorkflowEmbed "workflow_job" payload = Ok obj ->
  receive_event now r payload wid tok "workflow_job" tid cache
  = (stored now r id obj cache,
     [Send wid tok (thread_param tid) (embed obj)], outcome r) /\
  workflows obj = [] /\ description (embed obj) = None.
Proof.
  intros Hk Hg Hn.
  pose proof (new_WorkflowEmbed_fresh _ _ _ Hn) as (_ & Hw & Hd & _).
  split; [now apply receive_event_create|auto].
Qed.

(** A [workflow_run] event for a key whose record is live is not
    dispatched to [handle_workflow_run]. *)
Lemma run_update_on_live_record_ignored
    now r payload wid tok tid cache id obj :
  event_key "workflow_run" payload = Ok id ->
  TTLCache.get now cache id = Some obj ->
  receive_event now r payload wid tok "workflow_run" tid cache
  = (cache, [], Ok tt).
Proof.
  intros Hk Hg.
  now rewrite (receive_event_existing now r payload wid tok "workflow_run" tid
                 cache id obj eq_refl Hk Hg).
Qed.

(** A job update for a live record that has no message handle (the initial
    send failed) mutates the record and then raises [AttributeError]; no
    send is attempted. *)
Lemma job_update_without_handle
    now r payload wid tok tid cache id obj u :
  event_key "workflow_job" payload = Ok id ->
  TTLCache.get now cache id = Some obj ->
  message obj = None ->
  is_job_update payload u ->
  exists cache',
    receive_event now r payload wid tok "workflow_job" tid cache
    = (cache', [], Raise AttributeError).
Proof.
  intros Hk Hg Hm (wj & run_id & Hwj & Hc & Hn & Hr & Hh).
  rewrite (receive_event_existing now r payload wid tok "workflow_job" tid
             cache id obj eq_refl Hk Hg). simpl.
  unfold_handler. rewrite Hwj. simpl. rewrite Hc, Hn. simpl.
  rewrite Hr. simpl. rewrite Hh. simpl. rewrite Hm. eauto.
Qed.

(** A job update whose edit fails leaves the message handle as it is, so
    the next job update for the key edits the same message again. *)
Lemma failed_edit_keeps_handle
    now payload wid tok tid cache id obj h u :
  event_key "workflow_job" payload = Ok id ->
  TTLCache.get now cache id = Some obj ->
  message obj = Some h ->
  is_job_update payload u ->
  exists obj',
    receive_event now Failed payload wid tok "workflow_job" tid cache
    = (TTLCache.mutate id obj' cache, [Edit h (embed obj')],
       Raise HTTPException) /\
    message obj' = Some h /\
    TTLCache.get now (TTLCache.mutate id obj' cache) id = Some obj'.
Proof.
  intros Hk Hg Hm (wj & run_id & Hwj & Hc & Hn & Hr & Hh).
  rewrite (receive_event_existing now Failed payload wid tok "workflow_job" tid
             cache id obj eq_refl Hk Hg). simpl.
  unfold_handler. rewrite Hwj. simpl. rewrite Hc, Hn. simpl.
  rewrite Hr. simpl. rewrite Hh. simpl. rewrite Hm.
  eexists. split; [reflexivity|]. split; [exact Hm|].
  now apply (cache_get_mutate _ _ _ _ obj).
Qed.

(** * Further properties of the handlers and the endpoint *)

(** ** More on the store under in-place mutation *)

Lemma cache_expiries_mutate {V} (c : TTLCache.t V) k v :
  map TTLCache.expires (TTLCache.mutate k v c) = map TTLCache.expires c.
Proof.
  induction c as [|h c IH]; simpl; [reflexivity|].
  destruct (hkey_eqb k (TTLCache.key h)); simpl; [reflexivity|].
  f_equal. exact IH.
Qed.

Lemma cache_find_mutate_other {V} (c : TTLCache.t V) k k' v :
  k' <> k -> TTLCache.find k' (TTLCache.mutate k v c) = TTLCache.find k' c.
Proof.
  intro Hne. induction c as [|h c IH]; simpl; [reflexivity|].
  destruct (hkey_eqb k (TTLCache.key h)) eqn:E; simpl.
  - apply hkey_eqb_eq in E. subst k.
    assert (hkey_eqb k' (TTLCache.key h) = false) as ->
      by now apply hkey_eqb_neq.
    reflexivity.
  - destruct (hkey_eqb k' (TTLCache.key h)); [reflexivity|exact IH].
Qed.

Lemma cache_In_mutate {V} (c : TTLCache.t V) k v l :
  In l (TTLCache.mutate k v c) -> In l c \/ TTLCache.value l = v.
Proof.
  induction c as [|h c IH]; simpl; [tauto|].
  destruct (hkey_eqb k (TTLCache.key h)); simpl.
  - intros [<-|H]; [now right|left; now right].
  - intros [<-|H]; [left; now left|]. destruct (IH H); auto.
Qed.

Lemma cache_In_set {V} (c : TTLCache.t V) m ttl now k v l :
  In l (TTLCache.set m ttl now c k v) ->
  In l c \/ l = TTLCache.mkLink k (now + ttl) v.
Proof.
  unfold TTLCache.set, TTLCache.make_room, TTLCache.remove, TTLCache.expire.
  intro H. apply in_app_or in H as [H|[<-|[]]]; [left|now right].
  set (n := (_ + 1 - m)%nat) in H.
  assert (Hin : In l (filter (fun l0 => negb (hkey_eqb k (TTLCache.key l0)))
                        (filter (TTLCache.live now) c))).
  { rewrite <- (firstn_skipn n). apply in_or_app. now right. }
  apply filter_In in Hin as [Hin _]. now apply filter_In in Hin as [Hin _].
Qed.

Lemma cache_get_of_find {V} (c : TTLCache.t V) now k l :
  TTLCache.find k c = Some l -> now < TTLCache.expires l ->
  TTLCache.get now c k = Some (TTLCache.value l).
Proof.
  intros Hf Hl. unfold TTLCache.get, TTLCache.live. rewrite Hf.
  assert ((now <? TTLCache.expires l) = true) as -> by now apply Z.ltb_lt.
  reflexivity.
Qed.

(** ** The two handlers, case by case *)

Lemma is_job_update_functional payload u u' :
  is_job_update payload u -> is_job_update payload u' -> u = u'.
Proof.
  intros (wj & rid & Hwj & Hc & Hn & Hr & Hh)
         (wj' & rid' & Hwj' & Hc' & Hn' & Hr' & Hh').
  assert (wj' = wj) by congruence. subst wj'.
  assert (rid' = rid) by congruence. subst rid'.
  destruct u, u'. simpl in *. congruence.
Qed.

(** [handle_workflow_job] either reads a whole job update and then
    mutates and publishes, or raises before it has touched anything. *)
Lemma handle_workflow_job_cases r payload self :
  (exists u,
     is_job_update payload u /\
     handle_workflow_job r payload self =
     (upsert_job u self, fst (job_publish r (upsert_job u self)),
      snd (job_publish r (upsert_job u self)))) \/
  (exists e,
     (forall u, ~ is_job_update payload u) /\
     handle_workflow_job r payload self = (self, [], Raise e)).
Proof.
  unfold handle_workflow_job, bind, lift, modify, get_self, message_edit,
    raise, rbind, job_publish, upsert_job, outcome.
  destruct (subscript payload "workflow_job") as [wj|e] eqn:Hwj; simpl.
  2:{ right. exists e. split; [|reflexivity].
      intros u (wj' & rid' & H1 & _). congruence. }
  destruct (determine_color wj) as [c|e] eqn:Hc; simpl.
  2:{ right. exists e. split; [|reflexivity].
      intros u (wj' & rid' & H1 & H2 & _). congruence. }
  destruct (subscript wj "workflow_name") as [n|e] eqn:Hn; simpl.
  2:{ right. exists e. split; [|reflexivity].
      intros u (wj' & rid' & H1 & _ & H3 & _). congruence. }
  destruct (subscript wj "run_id") as [rid|e] eqn:Hr; simpl.
  2:{ right. exists e. split; [|reflexivity].
      intros u (wj' & rid' & H1 & _ & _ & H4 & _). congruence. }
  destruct (py_hash rid) as [k|e] eqn:Hh; simpl.
  2:{ right. exists e. split; [|reflexivity].
      intros u (wj' & rid' & H1 & _ & _ & H4 & H5).
      assert (wj' = wj) by congruence. subst wj'. congruence. }
  left. exists (mkJobUpdate k c n). split.
  - exists wj, rid. simpl. auto.
  - simpl. destruct (message self); [destruct r|]; reflexivity.
Qed.

Lemma upsert_job_fields u self :
  color (embed (upsert_job u self)) = color (embed self) /\
  title (embed (upsert_job u self)) = title (embed self) /\
  url (embed (upsert_job u self)) = url (embed self) /\
  author (embed (upsert_job u self)) = author (embed self) /\
  message (upsert_job u self) = message self /\
  workflows (upsert_job u self) =
  dict_set (ju_run_id u) (snd (ju_entry u)) (workflows self) /\
  description (embed (upsert_job u self)) =
  Some (create_description (upsert_job u self)).
Proof. repeat split. Qed.

Lemma upsert_job_ok u self : record_ok self -> record_ok (upsert_job u self).
Proof.
  intros (Hc & Ht & Hu & Hnd & _). repeat split; auto.
  - simpl. now apply dict_keys_set_NoDup.
  - right. reflexivity.
Qed.

(** [handle_workflow_run] writes the title, the link and the author only. *)
Lemma handle_workflow_run_frame r payload self self' acts res :
  handle_workflow_run r payload self = (self', acts, res) ->
  color (embed self') = color (embed self) /\
  workflows self' = workflows self /\
  description (embed self') = description (embed self) /\
  message self' = message self /\
  (title (embed self) <> None -> title (embed self') <> None) /\
  (url (embed self) <> None -> url (embed self') <> None).
Proof.
  unfold_handler.
  step_handler; intros [= <- <- <-]; simpl; repeat split; auto; discriminate.
Qed.

Lemma new_WorkflowEmbed_ok event payload obj :
  new_WorkflowEmbed event payload = Ok obj -> record_ok obj.
Proof.
  unfold_handler. step_handler; intros [= <-]; unfold record_ok, in_sync;
    simpl; repeat split; try discriminate; try constructor; auto.
Qed.

Lemma record_ok_same self self' :
  color (embed self') = color (embed self) ->
  (title (embed self) <> None -> title (embed self') <> None) ->
  (url (embed self) <> None -> url (embed self') <> None) ->
  workflows self' = workflows self ->
  description (embed self') = description (embed self) ->
  record_ok self -> record_ok self'.
Proof.
  intros Hc Ht Hu Hw Hd (Hc0 & Ht0 & Hu0 & Hnd & Hs).
  unfold record_ok, in_sync, create_description in *.
  rewrite Hc, Hw, Hd. auto.
Qed.

Lemma stored_records_ok now r id obj cache :
  record_ok obj ->
  Forall (fun l => record_ok (TTLCache.value l)) cache ->
  Forall (fun l => record_ok (TTLCache.value l)) (stored now r id obj cache).
Proof.
  intros Hobj Hall. rewrite Forall_forall in *. intros l Hin.
  assert (Hset : forall l0,
             In l0 (TTLCache.set cache_maxsize cache_ttl now cache id obj) ->
             record_ok (TTLCache.value l0)).
  { intros l0 H0. apply cache_In_set in H0 as [H0| ->]; auto. }
  unfold stored in Hin. destruct r as [h|]; [|auto].
  apply cache_In_mutate in Hin as [Hin| ->]; [auto|].
  now apply (record_ok_same obj).
Qed.

Lemma receive_event_records_ok now r payload wid tok event tid cache :
  Forall (fun l => record_ok (TTLCache.value l)) cache ->
  Forall (fun l => record_ok (TTLCache.value l))
         (fst (fst (receive_event now r payload wid tok event tid cache))).
Proof.
  intro Hall.
  destruct (accepted_event event) eqn:Ha.
  2:{ now rewrite receive_event_rejected. }
  destruct (event_key event payload) as [id|e] eqn:Hk.
  2:{ unfold receive_event. now rewrite Ha, Hk. }
  destruct (TTLCache.get now cache id) as [obj|] eqn:Hg.
  - rewrite (receive_event_existing _ _ _ _ _ _ _ _ id obj Ha Hk Hg).
    destruct (String.eqb event "workflow_job"); [|exact Hall].
    assert (Hobj : record_ok obj).
    { apply cache_get_live in Hg as (l & Hf & <- & _).
      apply cache_find_In in Hf. rewrite Forall_forall in Hall. auto. }
    destruct (handle_workflow_job_cases r payload obj)
      as [(u & _ & ->)|(e & _ & ->)]; simpl.
    + rewrite Forall_forall in *. intros l Hin.
      apply cache_In_mutate in Hin as [Hin| ->]; [auto|].
      now apply upsert_job_ok.
    + now rewrite (cache_mutate_get now cache id obj Hg).
  - destruct (new_WorkflowEmbed event payload) as [obj|e] eqn:Hn.
    2:{ unfold receive_event. now rewrite Ha, Hk, Hg, Hn. }
    pose proof (new_WorkflowEmbed_ok _ _ _ Hn) as Hobj.
    destruct (String.eqb event "workflow_run") eqn:He.
    + apply String.eqb_eq in He. subst event.
      destruct (handle_workflow_run r payload obj) as [[obj1 acts] res] eqn:Hh.
      destruct res as [[]|e].
      * rewrite (receive_event_create_run _ _ _ _ _ _ _ _ _ _ _ Hk Hg Hn Hh).
        simpl. apply stored_records_ok; [|exact Hall].
        apply handle_workflow_run_frame in Hh as (Hc & Hw & Hd & _ & Ht & Hu).
        now apply (record_ok_same obj).
      * unfold receive_event. simpl. now rewrite Hk, Hg, Hn, Hh.
    + rewrite (receive_event_create _ _ _ _ _ _ _ _ _ _ Ha He Hk Hg Hn).
      simpl. now apply stored_records_ok.
Qed.

(** ** Invariants of every reachable store *)

(** X1. Whatever is delivered, in whatever order and at whatever times,
    starting from the empty store: every stored record keeps the embed
    colour, has a title and a link, lists each job-run-id once, and its
    description is the rendering of its jobs (or is absent while it has no
    job). *)
Theorem reachable_records_ok (ds : list delivery) :
  Forall (fun l => record_ok (TTLCache.value l))
         (deliver_all ds TTLCache.empty).
Proof.
  assert (H : forall cache,
             Forall (fun l => record_ok (TTLCache.value l)) cache ->
             Forall (fun l => record_ok (TTLCache.value l))
                    (deliver_all ds cache)).
  { induction ds as [|d ds IH]; intros cache Hc; [exact Hc|].
    unfold deliver_all in *. simpl. apply IH.
    now apply receive_event_records_ok. }
  apply H. constructor.
Qed.

(** ** Events for a key whose record is live *)

(** X2. A [workflow_job] event for a live record either carries a whole
    job update, and then the stored record gets the entry and a fresh
    description and the stored message is edited (or, without message
    handle, [AttributeError] is raised after the mutation); or it does
    not, and then the store is as before, no call is made and the
    exception of the failed read escapes. *)
Theorem job_update_on_live_record now r payload wid tok tid cache id obj :
  event_key "workflow_job" payload = Ok id ->
  TTLCache.get now cache id = Some obj ->
  (exists u,
     is_job_update payload u /\
     receive_event now r payload wid tok "workflow_job" tid cache =
     (TTLCache.mutate id (upsert_job u obj) cache,
      fst (job_publish r (upsert_job u obj)),
      snd (job_publish r (upsert_job u obj))) /\
     TTLCache.get now (TTLCache.mutate id (upsert_job u obj) cache) id =
     Some (upsert_job u obj)) \/
  (exists e,
     (forall u, ~ is_job_update payload u) /\
     receive_event now r payload wid tok "workflow_job" tid cache =
     (cache, [], Raise e)).
Proof.
  intros Hk Hg.
  rewrite (receive_event_existing now r payload wid tok "workflow_job" tid
             cache id obj eq_refl Hk Hg). simpl.
  destruct (handle_workflow_job_cases r payload obj)
    as [(u & Hu & ->)|(e & Hn & ->)].
  - left. exists u. repeat split; auto.
    now apply (cache_get_mutate _ _ _ _ obj).
  - right. exists e. split; [exact Hn|].
    now rewrite (cache_mutate_get now cache id obj Hg).
Qed.

(** X3. An event for a key whose record is live never refreshes or moves
    an entry: the store keeps its keys and its expiry times, every other
    key keeps its entry, and the record keeps its message handle, title,
    link, author and colour. *)
Theorem live_record_frame now r payload wid tok event tid cache id obj :
  event_key event payload = Ok id ->
  TTLCache.get now cache id = Some obj ->
  let cache' :=
    fst (fst (receive_event now r payload wid tok event tid cache)) in
  TTLCache.keys cache' = TTLCache.keys cache /\
  map TTLCache.expires cache' = map TTLCache.expires cache /\
  (forall k, k <> id -> TTLCache.find k cache' = TTLCache.find k cache) /\
  exists obj',
    TTLCache.get now cache' id = Some obj' /\
    message obj' = message obj /\
    title (embed obj') = title (embed obj) /\
    url (embed obj') = url (embed obj) /\
    author (embed obj') = author (embed obj) /\
    color (embed obj') = color (embed obj).
Proof.
  intros Hk Hg cache'. subst cache'.
  assert (Hsame : forall c', c' = cache ->
            TTLCache.keys c' = TTLCache.keys cache /\
            map TTLCache.expires c' = map TTLCache.expires cache /\
            (forall k, k <> id -> TTLCache.find k c' = TTLCache.find k cache) /\
            exists obj',
              TTLCache.get now c' id = Some obj' /\
              message obj' = message obj /\
              title (embed obj') = title (embed obj) /\
              url (embed obj') = url (embed obj) /\
              author (embed obj') = author (embed obj) /\
              color (embed obj') = color (embed obj)).
  { intros c' ->. repeat split; auto. exists obj. repeat split; auto. }
  destruct (accepted_event event) eqn:Ha.
  2:{ rewrite receive_event_rejected by assumption. now apply Hsame. }
  rewrite (receive_event_existing _ _ _ _ _ _ _ _ id obj Ha Hk Hg).
  destruct (String.eqb event "workflow_job"); [|now apply Hsame].
  destruct (handle_workflow_job_cases r payload obj)
    as [(u & _ & ->)|(e & _ & ->)]; simpl.
  - split; [apply cache_keys_mutate|].
    split; [apply cache_expiries_mutate|].
    split; [intros k Hne; now apply cache_find_mutate_other|].
    exists (upsert_job u obj).
    split; [now apply (cache_get_mutate _ _ _ _ obj)|].
    repeat split.
  - apply Hsame. now apply (cache_mutate_get now).
Qed.

(** X4. For a key whose record is live the webhook id, the webhook token
    and the thread id of the request are not used: the edit goes to the
    stored message whatever they are. *)
Theorem live_record_ignores_webhook
    now r payload wid tok tid wid' tok' tid' event cache id obj :
  event_key event payload = Ok id ->
  TTLCache.get now cache id = Some obj ->
  receive_event now r payload wid tok event tid cache =
  receive_event now r payload wid' tok' event tid' cache.
Proof.
  intros Hk Hg. destruct (accepted_event event) eqn:Ha.
  - now rewrite !(receive_event_existing _ _ _ _ _ _ _ _ id obj Ha Hk Hg).
  - now rewrite !receive_event_rejected.
Qed.

(** X5. A call of the endpoint makes at most one outbound call.  A call
    is made only for an accepted event whose key can be read; it is a
    [Send] to the request's webhook when the key has no live record, and
    an [Edit] of the stored message, for a [workflow_job] event, when it
    has one. *)
Theorem outbound_calls_discipline now r payload wid tok event tid cache :
  let acts := snd (fst (receive_event now r payload wid tok event tid cache)) in
  (length acts <= 1)%nat /\
  forall a, In a acts ->
    accepted_event event = true /\
    exists id,
      event_key event payload = Ok id /\
      ((TTLCache.get now cache id = None /\
        exists e, a = Send wid tok (thread_param tid) e) \/
       (exists obj h e,
          TTLCache.get now cache id = Some obj /\ message obj = Some h /\
          event = "workflow_job" /\ a = Edit h e)).
Proof.
  intro acts. subst acts.
  destruct (accepted_event event) eqn:Ha.
  2:{ rewrite receive_event_rejected by assumption. simpl.
      split; [lia|intros a []]. }
  destruct (event_key event payload) as [id|e] eqn:Hk.
  2:{ unfold receive_event. rewrite Ha, Hk. simpl. split; [lia|intros a []]. }
  destruct (TTLCache.get now cache id) as [obj|] eqn:Hg.
  - rewrite (receive_event_existing _ _ _ _ _ _ _ _ id obj Ha Hk Hg).
    destruct (String.eqb event "workflow_job") eqn:Hj.
    2:{ simpl. split; [lia|intros a []]. }
    apply String.eqb_eq in Hj.
    destruct (handle_workflow_job_cases r payload obj)
      as [(u & _ & ->)|(e & _ & ->)]; simpl.
    2:{ split; [lia|intros a []]. }
    unfold job_publish. simpl. destruct (message obj) as [h|] eqn:Hm; simpl.
    2:{ split; [lia|intros a []]. }
    split; [lia|]. intros a [<-|[]]. split; [reflexivity|].
    exists id. split; [reflexivity|]. right. eauto 10.
  - destruct (receive_event_absent now r payload wid tok event tid cache id
                Ha Hk Hg) as [[e ->]|(obj & _ & _ & _ & ->)]; simpl.
    + split; [lia|intros a []].
    + split; [lia|]. intros a [<-|[]]. split; [reflexivity|].
      exists id. split; [reflexivity|]. left. eauto.
Qed.

(** X6. What is published is what is stored: the embed of every outbound
    call of a call of the endpoint is the embed of the record found under
    the event's key afterwards. *)
Theorem published_embed_is_stored now r payload wid tok event tid cache id :
  event_key event payload = Ok id ->
  forall a,
    In a (snd (fst (receive_event now r payload wid tok event tid cache))) ->
    exists obj',
      TTLCache.get now
        (fst (fst (receive_event now r payload wid tok event tid cache))) id
      = Some obj' /\
      action_embed a = embed obj'.
Proof.
  intros Hk a.
  destruct (accepted_event event) eqn:Ha.
  2:{ rewrite receive_event_rejected by assumption. intros []. }
  destruct (TTLCache.get now cache id) as [obj|] eqn:Hg.
  - rewrite (receive_event_existing _ _ _ _ _ _ _ _ id obj Ha Hk Hg).
    destruct (String.eqb event "workflow_job"); [|intros []].
    destruct (handle_workflow_job_cases r payload obj)
      as [(u & _ & ->)|(e & _ & ->)]; simpl; [|intros []].
    unfold job_publish. simpl. destruct (message obj); simpl; [|intros []].
    intros [<-|[]]. exists (upsert_job u obj).
    split; [now apply (cache_get_mutate _ _ _ _ obj)|reflexivity].
  - destruct (receive_event_absent now r payload wid tok event tid cache id
                Ha Hk Hg) as [[e ->]|(obj & _ & _ & _ & ->)]; simpl.
    + intros [].
    + intros [<-|[]]. rewrite stored_get. eexists. split; [reflexivity|].
      now destruct r.
Qed.

(** X7. The store is never changed silently, with one exception: when a
    call of the endpoint makes no outbound call, the store is as before,
    unless a [workflow_job] event ended in [AttributeError]. *)
Theorem no_call_no_change now r payload wid tok event tid cache cache' res :
  receive_event now r payload wid tok event tid cache = (cache', [], res) ->
  cache' = cache \/ (event = "workflow_job" /\ res = Raise AttributeError).
Proof.
  destruct (accepted_event event) eqn:Ha.
  2:{ rewrite receive_event_rejected by assumption. intros [= <- _]. now left. }
  destruct (event_key event payload) as [id|e] eqn:Hk.
  2:{ unfold receive_event. rewrite Ha, Hk. simpl. intros [= <- _]. now left. }
  destruct (TTLCache.get now cache id) as [obj|] eqn:Hg.
  - rewrite (receive_event_existing _ _ _ _ _ _ _ _ id obj Ha Hk Hg).
    destruct (String.eqb event "workflow_job") eqn:Hj.
    2:{ intros [= <- _]. now left. }
    apply String.eqb_eq in Hj.
    destruct (handle_workflow_job_cases r payload obj)
      as [(u & _ & ->)|(e & _ & ->)]; simpl.
    + unfold job_publish. simpl. destruct (message obj); simpl.
      * discriminate.
      * intros [= <- <-]. now right.
    + intros [= <- _]. left. now apply (cache_mutate_get now).
  - destruct (receive_event_absent now r payload wid tok event tid cache id
                Ha Hk Hg) as [[e ->]|(obj & _ & _ & _ & ->)].
    + intros [= <- _]. now left.
    + discriminate.
Qed.

(** ** Repeated and re-reported job updates *)

Lemma dict_set_set {V} (d : dict V) k v v' :
  dict_set k v (dict_set k v' d) = dict_set k v d.
Proof.
  induction d as [|[k0 v0] d IH]; simpl.
  - now rewrite hkey_eqb_refl.
  - destruct (hkey_eqb k k0) eqn:E; simpl; rewrite E; [reflexivity|].
    now rewrite IH.
Qed.

Lemma dict_set_middle {V} (d1 d2 : dict V) k v old :
  ~ In k (dict_keys d1) ->
  dict_set k v (d1 ++ (k, old) :: d2) = d1 ++ (k, v) :: d2.
Proof.
  induction d1 as [|[k0 v0] d1 IH]; simpl; intro Hn.
  - now rewrite hkey_eqb_refl.
  - destruct (hkey_eqb k k0) eqn:E.
    + apply hkey_eqb_eq in E. subst. tauto.
    + f_equal. apply IH. tauto.
Qed.

Lemma cache_mutate_mutate {V} (c : TTLCache.t V) k v v' :
  TTLCache.mutate k v (TTLCache.mutate k v' c) = TTLCache.mutate k v c.
Proof.
  induction c as [|h c IH]; simpl; [reflexivity|].
  destruct (hkey_eqb k (TTLCache.key h)) eqn:E; simpl; rewrite E;
    [reflexivity|now rewrite IH].
Qed.

Lemma upsert_job_twice u self :
  upsert_job u (upsert_job u self) = upsert_job u self.
Proof.
  unfold upsert_job, create_description. simpl. now rewrite dict_set_set.
Qed.

(** X8. Delivering the same [workflow_job] event twice to a live record
    is harmless: the second delivery leaves the store as the first left it
    and makes the same outbound call again. *)
Theorem job_redelivery_idempotent
    now1 now2 r1 r2 payload wid tok tid wid' tok' tid' cache id l :
  event_key "workflow_job" payload = Ok id ->
  TTLCache.find id cache = Some l ->
  now1 < TTLCache.expires l ->
  now2 < TTLCache.expires l ->
  let first :=
    receive_event now1 r1 payload wid tok "workflow_job" tid cache in
  let second :=
    receive_event now2 r2 payload wid' tok' "workflow_job" tid'
                  (fst (fst first)) in
  fst (fst second) = fst (fst first) /\
  snd (fst second) = snd (fst first).
Proof.
  intros Hk Hf H1 H2 first second. subst first second.
  pose proof (cache_get_of_find cache now1 id l Hf H1) as Hg1.
  rewrite (receive_event_existing now1 r1 payload wid tok "workflow_job" tid
             cache id _ eq_refl Hk Hg1). simpl.
  destruct (handle_workflow_job_cases r1 payload (TTLCache.value l))
    as [(u & Hu & ->)|(e & Hn & ->)]; simpl.
  - pose proof (cache_find_mutate cache id (upsert_job u (TTLCache.value l)) l Hf)
      as Hf'.
    pose proof (cache_get_of_find _ now2 id _ Hf' H2) as Hg2. simpl in Hg2.
    rewrite (receive_event_existing now2 r2 payload wid' tok' "workflow_job"
               tid' _ id _ eq_refl Hk Hg2). simpl.
    destruct (handle_workflow_job_cases r2 payload
                (upsert_job u (TTLCache.value l)))
      as [(u' & Hu' & ->)|(e & Hn & _)]; simpl.
    + rewrite (is_job_update_functional payload u' u Hu' Hu).
      rewrite upsert_job_twice, cache_mutate_mutate. split; [reflexivity|].
      unfold job_publish. simpl. now destruct (message (TTLCache.value l)).
    + destruct (Hn u Hu).
  - rewrite (cache_mutate_same cache id l Hf).
    pose proof (cache_get_of_find cache now2 id l Hf H2) as Hg2.
    rewrite (receive_event_existing now2 r2 payload wid' tok' "workflow_job"
               tid' cache id _ eq_refl Hk Hg2). simpl.
    destruct (handle_workflow_job_cases r2 payload (TTLCache.value l))
      as [(u & Hu & _)|(e' & _ & ->)]; simpl.
    + destruct (Hn u Hu).
    + now rewrite (cache_mutate_same cache id l Hf).
Qed.

(** X9. A job that is reported again keeps its line: the entry of its
    job-run-id is replaced where it stands, the entries before and after
    it are as they were, and the description is rendered from the result.
    A job-run-id that is new is added after all others. *)
Theorem job_reported_again_keeps_place r payload self u :
  is_job_update payload u ->
  let self' := after_job self (r, payload) in
  (forall before old after,
     workflows self = before ++ (ju_run_id u, old) :: after ->
     ~ In (ju_run_id u) (dict_keys before) ->
     workflows self' = before ++ ju_entry u :: after) /\
  (~ In (ju_run_id u) (dict_keys (workflows self)) ->
   workflows self' = workflows self ++ [ju_entry u]) /\
  description (embed self') = Some (create_description self').
Proof.
  intros Hu self'. subst self'. unfold after_job. simpl.
  destruct (handle_workflow_job_cases r payload self)
    as [(u' & Hu' & ->)|(e & Hn & _)]; [|destruct (Hn u Hu)].
  rewrite (is_job_update_functional payload u' u Hu' Hu). simpl.
  split; [|split; [|reflexivity]].
  - intros before old after Hw Hn. rewrite Hw. now apply dict_set_middle.
  - intro Hn. now apply dict_set_fresh.
Qed.

(** ** Construction of a record *)

Lemma new_WorkflowEmbed_built event payload repo nm html ev sha :
  subscript payload "repository" = Ok repo ->
  subscript repo "name" = Ok nm ->
  subscript repo "html_url" = Ok html ->
  subscript payload event = Ok ev ->
  subscript ev "head_sha" = Ok sha ->
  new_WorkflowEmbed event payload = Ok (first_record nm html sha).
Proof.
  intros Hrepo Hnm Hhtml Hev Hsha. unfold_handler.
  rewrite Hrepo. simpl. rewrite Hnm. simpl. rewrite Hhtml, Hev. simpl.
  rewrite Hsha. reflexivity.
Qed.

(** X10. [WorkflowEmbed(event, payload)] succeeds exactly when the payload
    has the repository name, the repository link and, under the event's
    own name, the head commit SHA; the record then has the workflows
    title, the commit link, no description, no author, no job and no
    message handle. *)
Theorem new_WorkflowEmbed_iff event payload obj :
  new_WorkflowEmbed event payload = Ok obj <->
  exists repo nm html ev sha,
    subscript payload "repository" = Ok repo /\
    subscript repo "name" = Ok nm /\
    subscript repo "html_url" = Ok html /\
    subscript payload event = Ok ev /\
    subscript ev "head_sha" = Ok sha /\
    obj = first_record nm html sha.
Proof.
  split.
  - unfold_handler.
    destruct (subscript payload "repository") as [repo|] eqn:Hrepo;
      simpl; [|discriminate].
    destruct (subscript repo "name") as [nm|] eqn:Hnm; simpl; [|discriminate].
    destruct (subscript repo "html_url") as [html|] eqn:Hhtml;
      simpl; [|discriminate].
    destruct (subscript payload event) as [ev|] eqn:Hev; simpl; [|discriminate].
    destruct (subscript ev "head_sha") as [sha|] eqn:Hsha;
      simpl; [|discriminate].
    intros [= <-]. exists repo, nm, html, ev, sha. repeat split; auto.
  - intros (repo & nm & html & ev & sha & Hrepo & Hnm & Hhtml & Hev & Hsha & ->).
    now apply (new_WorkflowEmbed_built event payload repo nm html ev sha).
Qed.

(** ** Run updates *)

(** X11. A [workflow_run] payload whose trigger is neither
    [workflow_dispatch] nor [pull_request] makes [handle_workflow_run]
    leave the record as it is; the handler only edits the message again
    when the record has one. *)
Theorem other_trigger_changes_nothing r payload self ev :
  run_event payload = Ok ev ->
  ev <> JStr "workflow_dispatch" ->
  ev <> JStr "pull_request" ->
  handle_workflow_run r payload self =
  (self,
   match message self with Some h => [Edit h (embed self)] | None => [] end,
   match message self with Some _ => outcome r | None => Ok tt end).
Proof.
  intros Hev Hd Hp. apply eq_str_false in Hd, Hp.
  unfold handle_workflow_run, bind, lift, ret, get_self, message_edit, outcome.
  rewrite Hev. simpl. rewrite Hd. simpl. rewrite Hp. simpl.
  destruct (message self); [destruct r|]; reflexivity.
Qed.

Section FirstPullRequestRun.

Variables (now : Z) (r : reply) (payload : json) (wid : Z) (tok : string)
          (tid : option Z) (cache : cache_t) (id : hkey).
Variables (wr sha actor login link avatar prs repo nm html : json).

Hypothesis Hwr : subscript payload "workflow_run" = Ok wr.
Hypothesis Hsha : subscript wr "head_sha" = Ok sha.
Hypothesis Hid : py_hash sha = Ok id.
Hypothesis Hev : subscript wr "event" = Ok (JStr "pull_request").
Hypothesis Hprs : subscript wr "pull_requests" = Ok prs.
Hypothesis Hactor : subscript wr "triggering_actor" = Ok actor.
Hypothesis Hlogin : subscript actor "login" = Ok login.
Hypothesis Hlink : subscript actor "html_url" = Ok link.
Hypothesis Havatar : py_get actor "avatar_url" = Ok avatar.
Hypothesis Hrepo : subscript payload "repository" = Ok repo.
Hypothesis Hnm : subscript repo "name" = Ok nm.
Hypothesis Hhtml : subscript repo "html_url" = Ok html.
Hypothesis Habsent : TTLCache.get now cache id = None.

Lemma pull_request_run_computed link' :
  handle_workflow_run r payload (first_record nm html sha)
  = (pull_request_record nm login link avatar link', [], Ok tt) ->
  receive_event now r payload wid tok "workflow_run" tid cache =
  (stored now r id (pull_request_record nm login link avatar link') cache,
   [Send wid tok (thread_param tid)
         (embed (pull_request_record nm login link avatar link'))],
   outcome r).
Proof.
  intro Hh.
  assert (Hk : event_key "workflow_run" payload = Ok id).
  { unfold event_key. rewrite Hwr. simpl. now rewrite Hsha. }
  apply (receive_event_create_run _ _ _ _ _ _ _ _ (first_record nm html sha)
           _ [] Hk Habsent); [|exact Hh].
  now apply (new_WorkflowEmbed_built _ _ repo nm html wr sha).
Qed.

(** X12. A [workflow_run] event triggered by [pull_request] that is the
    first event of its key and lists a pull request: the record stored and
    sent has the pull-request title, links to [/pulls/] followed by the id
    of the first listed pull request, and its author is the triggering
    actor with the avatar when the payload has one. *)
Theorem first_pull_request_run_links_pull pr prid :
  truthy prs = true ->
  subscript0 prs = Ok pr ->
  subscript pr "id" = Ok prid ->
  let rec :=
    pull_request_record nm login link avatar
      (py_str html ++ "/pulls/" ++ py_str prid)%string in
  receive_event now r payload wid tok "workflow_run" tid cache =
  (stored now r id rec cache,
   [Send wid tok (thread_param tid) (embed rec)], outcome r).
Proof.
  intros Ht Hpr Hprid rec. subst rec. apply pull_request_run_computed.
  unfold_handler. unfold first_record, pull_request_record.
  rewrite Hwr. simpl. rewrite Hev. simpl. rewrite Hprs. simpl.
  rewrite Ht. simpl. rewrite Hrepo. simpl. rewrite Hhtml. simpl.
  rewrite Hpr. simpl. rewrite Hprid. simpl. rewrite Hnm. simpl.
  rewrite Hactor. simpl. rewrite Havatar. simpl. rewrite Hlogin. simpl.
  rewrite Hlink. reflexivity.
Qed.

(** X13. The same event with an empty (or otherwise falsy) list of pull
    requests keeps the commit link of the record; title and author are
    set as before. *)
Theorem first_pull_request_run_without_pull :
  truthy prs = false ->
  let rec :=
    pull_request_record nm login link avatar
      (py_str html ++ "/commit/" ++ py_str sha)%string in
  receive_event now r payload wid tok "workflow_run" tid cache =
  (stored now r id rec cache,
   [Send wid tok (thread_param tid) (embed rec)], outcome r).
Proof.
  intros Ht rec. subst rec. apply pull_request_run_computed.
  unfold_handler. unfold first_record, pull_request_record.
  rewrite Hwr. simpl. rewrite Hev. simpl. rewrite Hprs. simpl.
  rewrite Ht. simpl. rewrite Hrepo. simpl. rewrite Hnm. simpl.
  rewrite Hactor. simpl. rewrite Havatar. simpl. rewrite Hlogin. simpl.
  rewrite Hlink. reflexivity.
Qed.

End FirstPullRequestRun.

(** ** Status markers, edge cases *)

(** X14. [determine_color] reads lazily: without [conclusion] it raises;
    with conclusion "failure" or "success" the marker is decided and
    [status] is not read, so it may be missing; with any other conclusion a
    missing [status] raises.  Whatever it returns is one of the five
    markers. *)
Theorem determine_color_reads_lazily payload :
  (forall e, subscript payload "conclusion" = Raise e ->
             determine_color payload = Raise e) /\
  (subscript payload "conclusion" = Ok (JStr "failure") ->
   determine_color payload = Ok LARGE_RED_CIRCLE) /\
  (subscript payload "conclusion" = Ok (JStr "success") ->
   determine_color payload = Ok LARGE_GREEN_CIRCLE) /\
  (forall c e,
     subscript payload "conclusion" = Ok c ->
     c <> JStr "failure" -> c <> JStr "success" ->
     subscript payload "status" = Raise e ->
     determine_color payload = Raise e) /\
  (forall m, determine_color payload = Ok m ->
     In m [LARGE_RED_CIRCLE; LARGE_GREEN_CIRCLE; LARGE_YELLOW_CIRCLE;
           WindowsLoading; BLACK_QUESTION_MARK_ORNAMENT]).
Proof.
  unfold determine_color. repeat split.
  - intros e ->. reflexivity.
  - intros ->. reflexivity.
  - intros ->. reflexivity.
  - intros c e -> Hf Hs ->. simpl.
    apply eq_str_false in Hf, Hs. now rewrite Hf, Hs.
  - intro m. destruct (subscript payload "conclusion") as [c|]; simpl;
      [|discriminate].
    destruct (eq_str c "failure"); [intros [= <-]; simpl; auto 10|].
    destruct (eq_str c "success"); [intros [= <-]; simpl; auto 10|].
    destruct (subscript payload "status") as [s|]; simpl; [|discriminate].
    destruct (eq_str s "queued"); [intros [= <-]; simpl; auto 10|].
    destruct (eq_str s "in_progress"); intros [= <-]; simpl; auto 10.
Qed.

(** ** The lifetime of a record *)

Lemma deliver_for_keeps id d cache l :
  delivery_for id (TTLCache.expires l) d ->
  TTLCache.find id cache = Some l ->
  exists l',
    TTLCache.find id (fst (fst (deliver d cache))) = Some l' /\
    TTLCache.expires l' = TTLCache.expires l /\
    message (TTLCache.value l') = message (TTLCache.value l) /\
    (message (TTLCache.value l) = None -> snd (fst (deliver d cache)) = []).
Proof.
  intros (Hk & Hnow) Hf. unfold deliver.
  pose proof (cache_get_of_find cache (d_now d) id l Hf Hnow) as Hg.
  destruct (accepted_event (d_event d)) eqn:Ha.
  2:{ rewrite receive_event_rejected by assumption. simpl. eauto. }
  rewrite (receive_event_existing _ _ _ _ _ _ _ _ id _ Ha Hk Hg).
  destruct (String.eqb (d_event d) "workflow_job"); [|simpl; eauto].
  destruct (handle_workflow_job_cases (d_reply d) (d_payload d)
              (TTLCache.value l)) as [(u & _ & ->)|(e & _ & ->)]; simpl.
  - rewrite (cache_find_mutate _ _ _ _ Hf). eexists. split; [reflexivity|].
    simpl. repeat split. intro Hm. unfold job_publish. simpl. now rewrite Hm.
  - rewrite (cache_mutate_same cache id l Hf). eauto.
Qed.

Lemma deliver_log_for id ds :
  forall cache log l,
    TTLCache.find id cache = Some l ->
    Forall (delivery_for id (TTLCache.expires l)) ds ->
    exists l',
      TTLCache.find id
        (fst (fold_left
                (fun (st : cache_t * list action) d =>
                   match deliver d (fst st) with
                   | (cache', acts, _) => (cache', snd st ++ acts)
                   end) ds (cache, log))) = Some l' /\
      TTLCache.expires l' = TTLCache.expires l /\
      message (TTLCache.value l') = message (TTLCache.value l) /\
      (message (TTLCache.value l) = None ->
       snd (fold_left
              (fun (st : cache_t * list action) d =>
                 match deliver d (fst st) with
                 | (cache', acts, _) => (cache', snd st ++ acts)
                 end) ds (cache, log)) = log).
Proof.
  induction ds as [|d ds IH]; intros cache log l Hf Hall; simpl.
  - exists l. auto.
  - inversion Hall as [|? ? Hd Hds]; subst.
    destruct (deliver_for_keeps id d cache l Hd Hf)
      as (l1 & Hf1 & He1 & Hm1 & Hq1).
    destruct (deliver d cache) as [[cache1 acts1] res1] eqn:Hdel.
    simpl in *. rewrite <- He1 in Hds.
    destruct (IH cache1 (log ++ acts1) l1 Hf1 Hds) as (l' & Hf' & He' & Hm' & Hq').
    exists l'. split; [exact Hf'|]. split; [congruence|].
    split; [congruence|].
    intro Hnone. transitivity (log ++ acts1); [apply Hq'; congruence|].
    rewrite (Hq1 Hnone). apply app_nil_r.
Qed.

(** X15. Activity does not keep a record alive: after any deliveries for
    the key of a live record, made during its lifetime, the entry still
    expires when it did before and the record has the message handle it
    had; from that time on the key reads as absent. *)
Theorem updates_do_not_extend_lifetime id ds cache l :
  TTLCache.find id cache = Some l ->
  Forall (delivery_for id (TTLCache.expires l)) ds ->
  exists l',
    TTLCache.find id (fst (deliver_log ds cache)) = Some l' /\
    TTLCache.expires l' = TTLCache.expires l /\
    message (TTLCache.value l') = message (TTLCache.value l) /\
    forall t, TTLCache.expires l <= t ->
              TTLCache.get t (fst (deliver_log ds cache)) id = None.
Proof.
  intros Hf Hall.
  destruct (deliver_log_for id ds cache [] l Hf Hall)
    as (l' & Hf' & He' & Hm' & _).
  exists l'. repeat split; auto.
  intros t Ht. apply (cache_get_expired t _ id l' Hf'). lia.
Qed.

(** X16. A stored record without message handle stays silent: whatever is
    delivered for its key during its lifetime, no outbound call is made
    and the record still has no handle. *)
Theorem record_without_handle_stays_silent id ds cache l :
  TTLCache.find id cache = Some l ->
  message (TTLCache.value l) = None ->
  Forall (delivery_for id (TTLCache.expires l)) ds ->
  snd (deliver_log ds cache) = [] /\
  exists l',
    TTLCache.find id (fst (deliver_log ds cache)) = Some l' /\
    message (TTLCache.value l') = None.
Proof.
  intros Hf Hm Hall.
  destruct (deliver_log_for id ds cache [] l Hf Hall)
    as (l' & Hf' & _ & Hm' & Hq).
  split; [now apply Hq|]. exists l'. split; [exact Hf'|congruence].
Qed.

(** ** The first event of a key *)

(** X17. The record is stored before the message is sent: for a first
    event other than [workflow_run] whose payload builds a record, the
    record is found under the key afterwards whatever Discord answers;
    with the handle of the new message when the send succeeded, without
    handle, and with [HTTPException] escaping, when it failed.  One [Send]
    with the record's embed is made in both cases. *)
Theorem first_event_stores_before_sending
    now r payload wid tok event tid cache id obj :
  accepted_event event = true ->
  String.eqb event "workflow_run" = false ->
  event_key event payload = Ok id ->
  TTLCache.get now cache id = None ->
  new_WorkflowEmbed event payload = Ok obj ->
  match receive_event now r payload wid tok event tid cache with
  | (cache', acts, res) =>
      acts = [Send wid tok (thread_param tid) (embed obj)] /\
      match r with
      | Delivered h =>
          res = Ok tt /\
          TTLCache.get now cache' id = Some (with_message (Some h) obj)
      | Failed =>
          res = Raise HTTPException /\
          TTLCache.get now cache' id = Some obj /\ message obj = None
      end
  end.
Proof.
  intros Ha He Hk Hg Hn.
  rewrite (receive_event_create _ _ _ _ _ _ _ _ _ _ Ha He Hk Hg Hn).
  split; [reflexivity|]. pose proof (stored_get now r id obj cache) as Hs.
  destruct r as [h|]; simpl; repeat split; auto.
  now apply new_WorkflowEmbed_fresh in Hn.
Qed.

(** ** Missing fields *)




Lemma event_key_resolve event payload id :
  event_key event payload = Ok id ->
  exists sha, resolve payload (key_read event) = Ok sha.
Proof.
  unfold event_key, key_read. simpl.
  destruct (subscript payload event) as [ev|]; simpl; [|discriminate].
  destruct (subscript ev "head_sha") as [sha|]; simpl; [|discriminate].
  eauto.
Qed.







End Aggregator.

(** * Concrete runs *)

(** Events B and C of the end-to-end scenario, on the record that event A
    created: each is an edit of message 1 whose description lists the jobs
    seen so far. *)
Example scenario_events_B_C :
  let '(cache_B, acts_B, res_B) :=
    receive_event str_of_scalar 1 (Delivered 2%nat) job_in_progress 42 "token"
                  "workflow_job" None published_store in
  let '(cache_C, acts_C, res_C) :=
    receive_event str_of_scalar 2 (Delivered 3%nat) job_failed 42 "token"
                  "workflow_job" None cache_B in
  map is_edit (acts_B ++ acts_C) = [true; true] /\
  option_map (fun obj => description (embed obj))
             (TTLCache.get 2 cache_B (KStr "sha1"))
  = Some (Some (WindowsLoading ++ " CI")%string) /\
  option_map (fun obj => description (embed obj))
             (TTLCache.get 2 cache_C (KStr "sha1"))
  = Some (Some (WindowsLoading ++ " CI" ++ newline
                ++ LARGE_RED_CIRCLE ++ " Lint")%string) /\
  res_B = Ok tt /\ res_C = Ok tt.
Proof. vm_compute. repeat split; reflexivity. Qed.

(** C1. Evaluation at the failing input: two job updates with the distinct
    job-run-ids 1 and 2 for one commit, from the empty store.  The first
    creates the record and is not applied to it, so the jobs mapping
    afterwards has the entry of job-run-id 2 only. *)
Theorem first_job_update_missing_from_jobs :
  is_job_update job_queued
    {| ju_run_id := KNum 1; ju_marker := LARGE_YELLOW_CIRCLE;
       ju_name := JStr "CI" |} /\
  is_job_update job_failed
    {| ju_run_id := KNum 2; ju_marker := LARGE_RED_CIRCLE;
       ju_name := JStr "Lint" |} /\
  option_map workflows
    (TTLCache.get 5
       (deliver_all str_of_scalar
          [mkDelivery 0 (Delivered 1%nat) job_queued 42 "token"
                      "workflow_job" None;
           mkDelivery 5 (Delivered 2%nat) job_failed 42 "token"
                      "workflow_job" None]
          TTLCache.empty)
       (KStr "sha1"))
  = Some [(KNum 2, {| wcolor := LARGE_RED_CIRCLE; wname := JStr "Lint" |})].
Proof.
  split; [eexists _, _; repeat split; reflexivity|].
  split; [eexists _, _; repeat split; reflexivity|].
  vm_compute. reflexivity.
Qed.

(** C2. Evaluation at the failing input: a queued job update on an empty
    store creates the record and sends, but the embed sent has no
    description and the stored record holds no job. *)
Theorem first_job_update_publishes_no_job_line :
  receive_event str_of_scalar 0 (Delivered 1%nat) job_queued 42 "token"
                "workflow_job" None TTLCache.empty
  = ([TTLCache.mkLink (KStr "sha1") 600
        {| embed := embed_sha1; workflows := []; message := Some 1%nat |}],
     [Send 42 "token" None embed_sha1], Ok tt) /\
  description embed_sha1 = None /\
  is_job_update job_queued
    {| ju_run_id := KNum 1; ju_marker := LARGE_YELLOW_CIRCLE;
       ju_name := JStr "CI" |}.
Proof.
  split; [vm_compute; reflexivity|]. split; [reflexivity|].
  eexists _, _. repeat split; reflexivity.
Qed.

(** C3. Evaluation at the failing input: [handle_workflow_run] applied to
    a published record sets the manual title and the author and edits the
    message, but the endpoint does not call it for a key whose record
    exists: a manually triggered [workflow_run] event for such a key changes
    nothing and makes no edit, while the same event arriving first sets the
    manual title and the author. *)
Theorem run_update_on_published_record_ignored :
  TTLCache.get 10 published_store (KStr "sha1")
  = Some {| embed := embed_sha1; workflows := []; message := Some 1%nat |} /\
  snd (fst (handle_workflow_run str_of_scalar (Delivered 2%nat)
              (run_payload "sha1" "workflow_dispatch")
              {| embed := embed_sha1; workflows := [];
                 message := Some 1%nat |}))
  = [Edit 1%nat
       {| color := og_blurple;
          title := Some "[BGAW] Manually Triggered Workflow";
          url := Some "https://github.com/LightSage/BGAW/commit/sha1";
          description := None;
          author := Some {| author_name := "LightSage";
                            author_url := Some "https://github.com/LightSage";
                            author_icon_url := None |} |}] /\
  receive_event str_of_scalar 10 (Delivered 2%nat)
                (run_payload "sha1" "workflow_dispatch") 42 "token"
                "workflow_run" None published_store
  = (published_store, [], Ok tt) /\
  snd (fst (receive_event str_of_scalar 10 (Delivered 2%nat)
              (run_payload "sha1" "workflow_dispatch") 42 "token"
              "workflow_run" None TTLCache.empty))
  = [Send 42 "token" None
       {| color := og_blurple;
          title := Some "[BGAW] Manually Triggered Workflow";
          url := Some "https://github.com/LightSage/BGAW/commit/sha1";
          description := None;
          author := Some {| author_name := "LightSage";
                            author_url := Some "https://github.com/LightSage";
                            author_icon_url := None |} |}].
Proof. repeat split; vm_compute; reflexivity. Qed.

(** C4, counterexample. A [check_run] event on an empty store stores a
    record and sends; a [check_suite] event is not among the accepted
    kinds. *)
Lemma check_run_first_event_publishes :
  receive_event str_of_scalar 0 (Delivered 1%nat) (check_payload "sha1")
                42 "token" "check_run" None TTLCache.empty
  = (published_store, [Send 42 "token" None embed_sha1], Ok tt) /\
  published_store <> TTLCache.empty /\
  accepted_event "check_suite" = false.
Proof.
  split; [vm_compute; reflexivity|]. split; [discriminate|reflexivity].
Qed.


(** C6. Evaluation at the failing input: the initial send fails, the
    record stays stored without message handle; the next job update for
    the key makes no send and raises [AttributeError]; a later
    [workflow_run] or [check_run] event makes no call at all. *)
Theorem failed_create_is_not_retried :
  receive_event str_of_scalar 0 Failed job_queued 42 "token"
                "workflow_job" None TTLCache.empty
  = (unpublished_store, [Send 42 "token" None embed_sha1],
     Raise HTTPException) /\
  option_map message (TTLCache.get 5 unpublished_store (KStr "sha1"))
  = Some None /\
  snd (fst (receive_event str_of_scalar 5 (Delivered 2%nat) job_in_progress
              42 "token" "workflow_job" None unpublished_store)) = [] /\
  snd (receive_event str_of_scalar 5 (Delivered 2%nat) job_in_progress
         42 "token" "workflow_job" None unpublished_store)
  = Raise AttributeError /\
  receive_event str_of_scalar 5 (Delivered 2%nat)
                (run_payload "sha1" "push") 42 "token"
                "workflow_run" None unpublished_store
  = (unpublished_store, [], Ok tt) /\
  receive_event str_of_scalar 5 (Delivered 2%nat) (check_payload "sha1")
                42 "token" "check_run" None unpublished_store
  = (unpublished_store, [], Ok tt).
Proof. repeat split; vm_compute; reflexivity. Qed.

(** ** Instances of the general theorems *)

Lemma determine_color_precedence_witness :
  determine_color (JObj [("status", JStr "in_progress"); ("conclusion", JNull)])
  = Ok WindowsLoading /\
  determine_color (JObj [("status", JStr "completed");
                         ("conclusion", JStr "failure")])
  = Ok LARGE_RED_CIRCLE.
Proof.
  split.
  - destruct (determine_color_precedence
                (JObj [("status", JStr "in_progress"); ("conclusion", JNull)])
                JNull (JStr "in_progress") eq_refl eq_refl)
      as (_ & _ & _ & H & _).
    apply H; try discriminate; reflexivity.
  - destruct (determine_color_precedence
                (JObj [("status", JStr "completed");
                       ("conclusion", JStr "failure")])
                (JStr "failure") (JStr "completed") eq_refl eq_refl)
      as (H & _).
    apply H. reflexivity.
Defined.

Lemma jobs_one_entry_per_run_id_witness :
  exists l,
    TTLCache.find (KStr "sha1")
      (deliver_all str_of_scalar
         [mkDelivery 5 (Delivered 2%nat) job_queued 42 "token"
                     "workflow_job" None;
          mkDelivery 9 Failed job_failed 42 "token" "workflow_job" None]
         published_store)
    = Some l /\
    workflows (TTLCache.value l)
    = [(KNum 1, {| wcolor := LARGE_YELLOW_CIRCLE; wname := JStr "CI" |});
       (KNum 2, {| wcolor := LARGE_RED_CIRCLE; wname := JStr "Lint" |})].
Proof.
  assert (Hq : is_job_update job_queued
                 (mkJobUpdate (KNum 1) LARGE_YELLOW_CIRCLE (JStr "CI"))).
  { eexists _, _. repeat split; reflexivity. }
  assert (Hf : is_job_update job_failed
                 (mkJobUpdate (KNum 2) LARGE_RED_CIRCLE (JStr "Lint"))).
  { eexists _, _. repeat split; reflexivity. }
  destruct (jobs_one_entry_per_run_id str_of_scalar
              [mkDelivery 5 (Delivered 2%nat) job_queued 42 "token"
                          "workflow_job" None;
               mkDelivery 9 Failed job_failed 42 "token" "workflow_job" None]
              [mkJobUpdate (KNum 1) LARGE_YELLOW_CIRCLE (JStr "CI");
               mkJobUpdate (KNum 2) LARGE_RED_CIRCLE (JStr "Lint")]
              published_store (KStr "sha1")
              (TTLCache.mkLink (KStr "sha1") 600
                 {| embed := embed_sha1; workflows := [];
                    message := Some 1%nat |}))
    as (l & Hl & _ & _ & _ & H).
  - reflexivity.
  - constructor; [|constructor; [|constructor]];
      (split; [reflexivity|split; [reflexivity|simpl; lia]]).
  - constructor; [exact Hq|]. constructor; [exact Hf|]. constructor.
  - simpl. constructor; [simpl; intros [E|[]]; discriminate E|].
    constructor; [intros []|constructor].
  - constructor.
  - exists l. split; [exact Hl|]. apply H. intros k _ [].
Defined.

Lemma check_events_amended_witness :
  receive_event str_of_scalar 10 (Delivered 2%nat) (check_payload "sha1")
                42 "token" "check_run" None published_store
  = (published_store, [], Ok tt) /\
  receive_event str_of_scalar 10 (Delivered 2%nat) (check_payload "sha2")
                42 "token" "check_run" None published_store
  = (stored 10 (Delivered 2%nat) (KStr "sha2")
       {| embed :=
            {| color := og_blurple;
               title := Some "[BGAW] Workflows";
               url := Some "https://github.com/LightSage/BGAW/commit/sha2";
               description := None;
               author := None |};
          workflows := []; message := None |}
       published_store,
     [Send 42 "token" None
        {| color := og_blurple;
           title := Some "[BGAW] Workflows";
           url := Some "https://github.com/LightSage/BGAW/commit/sha2";
           description := None;
           author := None |}],
     Ok tt).
Proof.
  split.
  - destruct (check_events_amended str_of_scalar 10 (Delivered 2%nat)
                (check_payload "sha1") 42 "token" None published_store)
      as (_ & H & _).
    apply (H (KStr "sha1")
             {| embed := embed_sha1; workflows := [];
                message := Some 1%nat |}); reflexivity.
  - destruct (check_events_amended str_of_scalar 10 (Delivered 2%nat)
                (check_payload "sha2") 42 "token" None published_store)
      as (_ & _ & H).
    apply (H (KStr "sha2")); reflexivity.
Defined.


Lemma expired_entry_is_absent_witness :
  TTLCache.get 600 published_store (KStr "sha1") = None /\
  receive_event str_of_scalar 600 (Delivered 2%nat) job_in_progress
                42 "token" "workflow_job" None published_store
  = (stored 600 (Delivered 2%nat) (KStr "sha1")
       {| embed := embed_sha1; workflows := []; message := None |}
       published_store,
     [Send 42 "token" None embed_sha1], Ok tt).
Proof.
  destruct (expired_entry_is_absent str_of_scalar) as (_ & _ & _ & H).
  destruct (H 600 (Delivered 2%nat) job_in_progress 42 "token"
              "workflow_job" None published_store (KStr "sha1")
              (TTLCache.mkLink (KStr "sha1") 600
                 {| embed := embed_sha1; workflows := [];
                    message := Some 1%nat |}))
    as (Hg & _ & _ & _ & Hc).
  - constructor; [intros []|constructor].
  - reflexivity.
  - reflexivity.
  - reflexivity.
  - simpl. lia.
  - split; [exact Hg|]. apply Hc; reflexivity.
Defined.

Lemma manual_run_title_author_kept_witness :
  exists l,
    TTLCache.find (KStr "sha1")
      (deliver_all str_of_scalar
         [mkDelivery 5 (Delivered 2%nat) job_in_progress 42 "token"
                     "workflow_job" None;
          mkDelivery 599 Failed job_failed 42 "token" "workflow_job" None]
         (fst (fst (receive_event str_of_scalar 0 (Delivered 1%nat)
                      (run_payload "sha1" "workflow_dispatch") 42 "token"
                      "workflow_run" None TTLCache.empty))))
    = Some l /\
    TTLCache.expires l = 0 + cache_ttl /\
    title (embed (TTLCache.value l))
    = Some "[BGAW] Manually Triggered Workflow" /\
    author (embed (TTLCache.value l))
    = Some {| author_name := "LightSage";
              author_url := Some "https://github.com/LightSage";
              author_icon_url := None |}.
Proof.
  apply (manual_run_title_author_kept str_of_scalar 0 (Delivered 1%nat)
           (run_payload "sha1" "workflow_dispatch") 42 "token" None
           TTLCache.empty (KStr "sha1")
           (JObj [("head_sha", JStr "sha1"); ("event", JStr "workflow_dispatch");
                  ("triggering_actor",
                   JObj [("login", JStr "LightSage");
                         ("html_url", JStr "https://github.com/LightSage");
                         ("avatar_url", JStr "https://avatars.example/1")]);
                  ("pull_requests", JArr [])])
           (JStr "sha1")
           (JObj [("login", JStr "LightSage");
                  ("html_url", JStr "https://github.com/LightSage");
                  ("avatar_url", JStr "https://avatars.example/1")])
           (JStr "LightSage") (JStr "https://github.com/LightSage")
           repository (JStr "BGAW")
           (JStr "https://github.com/LightSage/BGAW")
           eq_refl eq_refl eq_refl eq_refl eq_refl eq_refl eq_refl eq_refl
           eq_refl eq_refl eq_refl).
  constructor; [|constructor; [|constructor]];
    (split; [reflexivity|split; [reflexivity|simpl; unfold cache_ttl; lia]]).
Defined.

(** ** Instances of the further properties *)

Lemma job_update_on_live_record_witness :
  exists u,
    is_job_update job_in_progress u /\
    receive_event str_of_scalar 5 (Delivered 2%nat) job_in_progress 42 "token"
                  "workflow_job" None published_store
    = (TTLCache.mutate (KStr "sha1")
         (upsert_job str_of_scalar u
            {| embed := embed_sha1; workflows := []; message := Some 1%nat |})
         published_store,
       [Edit 1%nat
          (embed (upsert_job str_of_scalar u
                    {| embed := embed_sha1; workflows := [];
                       message := Some 1%nat |}))],
       Ok tt).
Proof.
  destruct (job_update_on_live_record str_of_scalar 5 (Delivered 2%nat)
              job_in_progress 42 "token" None published_store (KStr "sha1")
              {| embed := embed_sha1; workflows := []; message := Some 1%nat |}
              eq_refl eq_refl)
    as [(u & Hu & Hr & _)|(e & Hn & _)].
  - exists u. split; [exact Hu|exact Hr].
  - exfalso.
    apply (Hn (mkJobUpdate (KNum 1) WindowsLoading (JStr "CI"))).
    eexists _, _. repeat split; reflexivity.
Defined.

Lemma live_record_frame_witness :
  map TTLCache.expires
    (fst (fst (receive_event str_of_scalar 5 (Delivered 2%nat) job_in_progress
                 42 "token" "workflow_job" None published_store)))
  = [600].
Proof.
  destruct (live_record_frame str_of_scalar 5 (Delivered 2%nat)
              job_in_progress 42 "token" "workflow_job" None published_store
              (KStr "sha1")
              {| embed := embed_sha1; workflows := []; message := Some 1%nat |}
              eq_refl eq_refl)
    as (_ & H & _).
  exact H.
Defined.

Lemma live_record_ignores_webhook_witness :
  receive_event str_of_scalar 5 (Delivered 2%nat) job_in_progress 42 "token"
                "workflow_job" None published_store
  = receive_event str_of_scalar 5 (Delivered 2%nat) job_in_progress 7 "other"
                  "workflow_job" (Some 3) published_store.
Proof.
  apply (live_record_ignores_webhook str_of_scalar 5 (Delivered 2%nat)
           job_in_progress 42 "token" None 7 "other" (Some 3) "workflow_job"
           published_store (KStr "sha1")
           {| embed := embed_sha1; workflows := []; message := Some 1%nat |});
    reflexivity.
Defined.

Lemma outbound_calls_discipline_witness :
  accepted_event "workflow_job" = true /\
  exists id,
    event_key "workflow_job" job_queued = Ok id /\
    ((TTLCache.get 0 (TTLCache.empty : cache_t) id = None /\
      exists e, Send 42 "token" None embed_sha1
                = Send 42 "token" (thread_param None) e) \/
     (exists obj h e,
        TTLCache.get 0 (TTLCache.empty : cache_t) id = Some obj /\ message obj = Some h /\
        "workflow_job" = "workflow_job" /\
        Send 42 "token" None embed_sha1 = Edit h e)).
Proof.
  destruct (outbound_calls_discipline str_of_scalar 0 (Delivered 1%nat)
              job_queued 42 "token" "workflow_job" None TTLCache.empty)
    as (_ & H).
  apply (H (Send 42 "token" None embed_sha1)). left. reflexivity.
Defined.

Lemma published_embed_is_stored_witness :
  exists obj',
    TTLCache.get 0
      (fst (fst (receive_event str_of_scalar 0 (Delivered 1%nat) job_queued
                   42 "token" "workflow_job" None TTLCache.empty)))
      (KStr "sha1")
    = Some obj' /\
    action_embed (Send 42 "token" None embed_sha1) = embed obj'.
Proof.
  apply (published_embed_is_stored str_of_scalar 0 (Delivered 1%nat)
           job_queued 42 "token" "workflow_job" None TTLCache.empty
           (KStr "sha1") eq_refl).
  left. reflexivity.
Defined.

Lemma no_call_no_change_witness :
  unpublished_store = unpublished_store \/
  ("check_run" = "workflow_job" /\ Ok tt = Raise AttributeError).
Proof.
  apply (no_call_no_change str_of_scalar 5 (Delivered 2%nat)
           (check_payload "sha1") 42 "token" "check_run" None
           unpublished_store unpublished_store (Ok tt)).
  reflexivity.
Defined.

Lemma job_redelivery_idempotent_witness :
  fst (fst (receive_event str_of_scalar 9 Failed job_in_progress 7 "other"
              "workflow_job" (Some 3)
              (fst (fst (receive_event str_of_scalar 5 (Delivered 2%nat)
                           job_in_progress 42 "token" "workflow_job" None
                           published_store)))))
  = fst (fst (receive_event str_of_scalar 5 (Delivered 2%nat)
                job_in_progress 42 "token" "workflow_job" None
                published_store)).
Proof.
  destruct (job_redelivery_idempotent str_of_scalar 5 9 (Delivered 2%nat)
              Failed job_in_progress 42 "token" None 7 "other" (Some 3)
              published_store (KStr "sha1")
              (TTLCache.mkLink (KStr "sha1") 600
                 {| embed := embed_sha1; workflows := [];
                    message := Some 1%nat |})
              eq_refl eq_refl eq_refl eq_refl)
    as (H & _).
  exact H.
Defined.

Lemma job_reported_again_keeps_place_witness :
  workflows
    (after_job str_of_scalar
       {| embed := embed_sha1;
          workflows :=
            [(KNum 1, {| wcolor := LARGE_YELLOW_CIRCLE; wname := JStr "CI" |});
             (KNum 2, {| wcolor := LARGE_RED_CIRCLE; wname := JStr "Lint" |})];
          message := Some 1%nat |}
       (Delivered 2%nat, job_in_progress))
  = [(KNum 1, {| wcolor := WindowsLoading; wname := JStr "CI" |});
     (KNum 2, {| wcolor := LARGE_RED_CIRCLE; wname := JStr "Lint" |})].
Proof.
  assert (Hu : is_job_update job_in_progress
                 (mkJobUpdate (KNum 1) WindowsLoading (JStr "CI"))).
  { eexists _, _. repeat split; reflexivity. }
  destruct (job_reported_again_keeps_place str_of_scalar (Delivered 2%nat)
              job_in_progress
              {| embed := embed_sha1;
                 workflows :=
                   [(KNum 1, {| wcolor := LARGE_YELLOW_CIRCLE;
                                wname := JStr "CI" |});
                    (KNum 2, {| wcolor := LARGE_RED_CIRCLE;
                                wname := JStr "Lint" |})];
                 message := Some 1%nat |}
              (mkJobUpdate (KNum 1) WindowsLoading (JStr "CI")) Hu)
    as (H & _).
  apply (H [] {| wcolor := LARGE_YELLOW_CIRCLE; wname := JStr "CI" |}
           [(KNum 2, {| wcolor := LARGE_RED_CIRCLE; wname := JStr "Lint" |})]).
  - reflexivity.
  - intros [].
Defined.

Lemma new_WorkflowEmbed_iff_witness :
  new_WorkflowEmbed str_of_scalar "check_run" (check_payload "sha1")
  = Ok (first_record str_of_scalar (JStr "BGAW")
          (JStr "https://github.com/LightSage/BGAW") (JStr "sha1")).
Proof.
  apply (proj2 (new_WorkflowEmbed_iff str_of_scalar "check_run"
                  (check_payload "sha1") _)).
  exists repository, (JStr "BGAW"), (JStr "https://github.com/LightSage/BGAW"),
    (JObj [("head_sha", JStr "sha1")]), (JStr "sha1").
  repeat split; reflexivity.
Defined.

Lemma other_trigger_changes_nothing_witness :
  handle_workflow_run str_of_scalar (Delivered 2%nat)
    (run_payload "sha1" "push")
    {| embed := embed_sha1; workflows := []; message := Some 1%nat |}
  = ({| embed := embed_sha1; workflows := []; message := Some 1%nat |},
     [Edit 1%nat embed_sha1], Ok tt).
Proof.
  apply (other_trigger_changes_nothing str_of_scalar (Delivered 2%nat)
           (run_payload "sha1" "push")
           {| embed := embed_sha1; workflows := []; message := Some 1%nat |}
           (JStr "push")); [reflexivity|discriminate|discriminate].
Defined.

Lemma first_pull_request_run_links_pull_witness :
  receive_event str_of_scalar 0 (Delivered 1%nat)
    (pull_request_payload "sha1" [JObj [("id", JNum 17)]])
    42 "token" "workflow_run" None TTLCache.empty
  = (stored 0 (Delivered 1%nat) (KStr "sha1")
       (pull_request_record str_of_scalar (JStr "BGAW") (JStr "LightSage")
          (JStr "https://github.com/LightSage")
          (JStr "https://avatars.example/1")
          (str_of_scalar (JStr "https://github.com/LightSage/BGAW")
           ++ "/pulls/" ++ str_of_scalar (JNum 17))%string)
       TTLCache.empty,
     [Send 42 "token" (thread_param None)
        (embed
           (pull_request_record str_of_scalar (JStr "BGAW") (JStr "LightSage")
              (JStr "https://github.com/LightSage")
              (JStr "https://avatars.example/1")
              (str_of_scalar (JStr "https://github.com/LightSage/BGAW")
               ++ "/pulls/" ++ str_of_scalar (JNum 17))%string))],
     outcome (Delivered 1%nat)).
Proof.
  eapply (first_pull_request_run_links_pull str_of_scalar 0 (Delivered 1%nat)
            (pull_request_payload "sha1" [JObj [("id", JNum 17)]])
            42 "token" None TTLCache.empty (KStr "sha1"));
    reflexivity.
Defined.

Lemma first_pull_request_run_without_pull_witness :
  receive_event str_of_scalar 0 (Delivered 1%nat)
    (pull_request_payload "sha1" [])
    42 "token" "workflow_run" None TTLCache.empty
  = (stored 0 (Delivered 1%nat) (KStr "sha1")
       (pull_request_record str_of_scalar (JStr "BGAW") (JStr "LightSage")
          (JStr "https://github.com/LightSage")
          (JStr "https://avatars.example/1")
          (str_of_scalar (JStr "https://github.com/LightSage/BGAW")
           ++ "/commit/" ++ str_of_scalar (JStr "sha1"))%string)
       TTLCache.empty,
     [Send 42 "token" (thread_param None)
        (embed
           (pull_request_record str_of_scalar (JStr "BGAW") (JStr "LightSage")
              (JStr "https://github.com/LightSage")
              (JStr "https://avatars.example/1")
              (str_of_scalar (JStr "https://github.com/LightSage/BGAW")
               ++ "/commit/" ++ str_of_scalar (JStr "sha1"))%string))],
     outcome (Delivered 1%nat)).
Proof.
  eapply (first_pull_request_run_without_pull str_of_scalar 0 (Delivered 1%nat)
            (pull_request_payload "sha1" [])
            42 "token" None TTLCache.empty (KStr "sha1"));
    reflexivity.
Defined.

Lemma determine_color_reads_lazily_witness :
  determine_color (JObj [("conclusion", JStr "failure")]) = Ok LARGE_RED_CIRCLE /\
  determine_color (JObj [("conclusion", JNull)])
  = Raise (KeyError (KStr "status")).
Proof.
  destruct (determine_color_reads_lazily (JObj [("conclusion", JStr "failure")]))
    as (_ & Hf & _).
  destruct (determine_color_reads_lazily (JObj [("conclusion", JNull)]))
    as (_ & _ & _ & Hs & _).
  split; [apply Hf; reflexivity|].
  apply (Hs JNull); [reflexivity|discriminate|discriminate|reflexivity].
Defined.

Lemma updates_do_not_extend_lifetime_witness :
  exists l',
    TTLCache.find (KStr "sha1")
      (fst (deliver_log str_of_scalar deliveries_sha1 published_store))
    = Some l' /\
    TTLCache.expires l' = 600 /\
    message (TTLCache.value l') = Some 1%nat /\
    forall t, 600 <= t ->
      TTLCache.get t
        (fst (deliver_log str_of_scalar deliveries_sha1 published_store))
        (KStr "sha1") = None.
Proof.
  apply (updates_do_not_extend_lifetime str_of_scalar (KStr "sha1")
           deliveries_sha1 published_store
           (TTLCache.mkLink (KStr "sha1") 600
              {| embed := embed_sha1; workflows := [];
                 message := Some 1%nat |}) eq_refl).
  repeat constructor; simpl; lia.
Defined.

Lemma record_without_handle_stays_silent_witness :
  snd (deliver_log str_of_scalar deliveries_sha1 unpublished_store) = [] /\
  exists l',
    TTLCache.find (KStr "sha1")
      (fst (deliver_log str_of_scalar deliveries_sha1 unpublished_store))
    = Some l' /\
    message (TTLCache.value l') = None.
Proof.
  apply (record_without_handle_stays_silent str_of_scalar (KStr "sha1")
           deliveries_sha1 unpublished_store
           (TTLCache.mkLink (KStr "sha1") 600
              {| embed := embed_sha1; workflows := []; message := None |})
           eq_refl eq_refl).
  repeat constructor; simpl; lia.
Defined.

Lemma first_event_stores_before_sending_witness :
  match receive_event str_of_scalar 0 Failed (check_payload "sha1")
                      42 "token" "check_run" (Some 0) TTLCache.empty with
  | (cache', acts, res) =>
      acts = [Send 42 "token" (thread_param (Some 0))
                   (embed {| embed := embed_sha1; workflows := [];
                             message := None |})] /\
      res = Raise HTTPException /\
      TTLCache.get 0 cache' (KStr "sha1")
      = Some {| embed := embed_sha1; workflows := []; message := None |} /\
      message {| embed := embed_sha1; workflows := []; message := None |}
      = None
  end.
Proof.
  apply (first_event_stores_before_sending str_of_scalar 0 Failed
           (check_payload "sha1") 42 "token" "check_run" (Some 0)
           TTLCache.empty (KStr "sha1")
           {| embed := embed_sha1; workflows := []; message := None |});
    reflexivity.
Defined.
